(** * v-pipe-scout: mutation codec, coverage aggregation, signature matrix
    and deconvolution task, as a shallow embedding of the Python sources.

    Python strings are modelled as Stdlib [string] over ASCII; Python ints
    as [Z] (positions) or [nat] (counts returned by the count service). *)

From Stdlib Require Import String Ascii List Bool ZArith Lia QArith Sorted.
From stdpp Require Import base gmap strings.
Import ListNotations.
Open Scope string_scope.
(* stdpp makes [String.append] opaque to [simpl]; the proofs below compute
   with it. *)
#[local] Arguments String.append : simpl nomatch.

(* ------------------------------------------------------------------ *)
(** ** Python string helpers *)

Module Py.

(** [c in s] for a one-character needle. *)
Fixpoint contains (c : ascii) (s : string) : bool :=
  match s with
  | EmptyString => false
  | String c' s' => if Ascii.eqb c c' then true else contains c s'
  end.

(** [all(c == x for c in s)] *)
Fixpoint all_eq (x : ascii) (s : string) : bool :=
  match s with
  | EmptyString => true
  | String c s' => Ascii.eqb c x && all_eq x s'
  end.

(** [s.split(c)]: Python keeps empty pieces. *)
Fixpoint split (c : ascii) (s : string) : list string :=
  match s with
  | EmptyString => [EmptyString]
  | String c' s' =>
      if Ascii.eqb c c' then EmptyString :: split c s'
      else match split c s' with
           | [] => [String c' EmptyString]
           | p :: ps => String c' p :: ps
           end
  end.

(** [s[i]] for [0 <= i < len(s)]: a one-character string. *)
Definition index (s : string) (i : nat) : string := substring i 1 s.

(** Decimal digits, as produced by [str(int)]. *)
Definition digit (d : nat) : ascii := ascii_of_nat (48 + d).

Fixpoint str_nat_aux (fuel n : nat) : string :=
  match fuel with
  | O => EmptyString
  | S f =>
      if Nat.ltb n 10 then String (digit n) EmptyString
      else str_nat_aux f (n / 10) ++ String (digit (n mod 10)) EmptyString
  end.

Definition str_nat (n : nat) : string := str_nat_aux (S n) n.

(** [str(z)] for a Python int. *)
Definition str_Z (z : Z) : string :=
  if Z.ltb z 0 then "-" ++ str_nat (Z.to_nat (- z))
  else str_nat (Z.to_nat z).

(** [s.upper()] on ASCII. *)
Definition upper_char (c : ascii) : ascii :=
  let n := nat_of_ascii c in
  if Nat.leb 97 n && Nat.leb n 122 then ascii_of_nat (n - 32) else c.

Fixpoint upper (s : string) : string :=
  match s with
  | EmptyString => EmptyString
  | String c s' => String (upper_char c) (upper s')
  end.

Definition is_digit (c : ascii) : bool :=
  let n := nat_of_ascii c in Nat.leb 48 n && Nat.leb n 57.

(** [int(s)] on a string of ASCII digits. *)
Fixpoint int_of_digits_acc (acc : nat) (s : string) : nat :=
  match s with
  | EmptyString => acc
  | String c s' => int_of_digits_acc (10 * acc + (nat_of_ascii c - 48)) s'
  end.

Definition int_of_digits (s : string) : nat := int_of_digits_acc 0 s.

(** CPython's limit on the digits of a decimal [int] conversion
    ([sys.get_int_max_str_digits()], 4300 by default since 3.11 and the
    3.7-3.10 security releases); leading zeros count. *)
Definition int_max_str_digits : nat := 4300.

(** [int(s)] on a string of ASCII digits: [None] is the [ValueError]
    "Exceeds the limit (4300 digits) for integer string conversion". *)
Definition py_int (s : string) : option nat :=
  if Nat.ltb int_max_str_digits (String.length s) then None
  else Some (int_of_digits s).

(** Every character is an ASCII digit. *)
Fixpoint digits_only (s : string) : bool :=
  match s with
  | EmptyString => true
  | String c s' => is_digit c && digits_only s'
  end.

End Py.

(* ------------------------------------------------------------------ *)
(** ** [VariantDefinition.format_mutation] (src/api/signatures.py) *)

Module Signatures.

Definition dash : ascii := "-".
Definition gt : ascii := ">".

(** [f"{ref}{position}{alt}"] *)
Definition code (ref : string) (position : Z) (alt : string) : string :=
  ref ++ Py.str_Z position ++ alt.

Definition format_mutation (position : Z) (change : string) : list string :=
  if Py.all_eq dash change then
    (* handle deletion: ref = "", alt = "-" once per character *)
    map (fun _ => code "" position "-") (seq 0 (String.length change))
  else if Py.contains gt change then
    match Py.split gt change with
    | [ref; alt] =>
        if Nat.ltb 1 (String.length ref) && Nat.ltb 1 (String.length alt)
           && Nat.eqb (String.length ref) (String.length alt) then
          flat_map
            (fun i => if Nat.ltb i (String.length alt)
                      then [code (Py.index ref i) (position + Z.of_nat i)
                                 (Py.index alt i)]
                      else [])
            (seq 0 (String.length ref))
        else if negb (Nat.eqb (String.length ref) (String.length alt)) then
          [] (* complex mutation: skipped with a warning *)
        else if negb (String.eqb ref "") && negb (String.eqb alt "") then
          [code ref position alt]
        else []
    | _ => [] (* not exactly one '>': warning *)
    end
  else [].

(** A run of [n] deletion markers. *)
Fixpoint dashes (n : nat) : string :=
  match n with
  | O => EmptyString
  | S k => String dash (dashes k)
  end.

End Signatures.

(* ------------------------------------------------------------------ *)
(** ** [Mutation.validate_mutation_string] (src/api/signatures.py) *)

Module Mutation.

(** The parsed [mutation_data] dictionary. *)
Record mutation_data := mk_mutation_data {
  md_position : Z;
  md_ref : string;
  md_alt : string
}.

(** [(is_valid, error_message, mutation_data)] *)
Inductive validation :=
| Valid (d : mutation_data)
| Invalid (error_message : string).

Definition ref_chars : string := "ACGTN".
Definition alt_chars : string := "ACGTN-".
Definition newline : ascii := ascii_of_nat 10.

(** [\d+] (ASCII digits), greedy. *)
Fixpoint span_digits (s : string) : string * string :=
  match s with
  | EmptyString => (EmptyString, EmptyString)
  | String c s' =>
      if Py.is_digit c then
        let (d, r) := span_digits s' in (String c d, r)
      else (EmptyString, s)
  end.

(** [re.match(r"^([ACGTN]?)(\d+)([ACGTN-])$", s)], returning the three
    groups.  The optional group is greedy, and no backtracking can help
    since a letter is never a digit and a digit is never an ALT symbol.
    Python's [$] also matches just before a final newline. *)
Definition split_ref (s : string) : string * string :=
  match s with
  | String c s' =>
      if Py.contains c ref_chars then (String c EmptyString, s')
      else (EmptyString, s)
  | EmptyString => (EmptyString, EmptyString)
  end.

(** [([ACGTN-])$] *)
Definition match_alt (rest : string) : option string :=
  match rest with
  | String a tail =>
      if Py.contains a alt_chars
         && (String.eqb tail "" || String.eqb tail (String newline ""))
      then Some (String a EmptyString)
      else None
  | EmptyString => None
  end.

Definition regex_match (s : string) : option (string * string * string) :=
  let '(ref, rest) := split_ref s in
  let '(pos, rest') := span_digits rest in
  if String.eqb pos "" then None
  else match match_alt rest' with
       | Some alt => Some (ref, pos, alt)
       | None => None
       end.

(** The pydantic validators of [Mutation]: the regex already restricts
    [ref] and [alt], so only [validate_position] can fail.  [int(pos_str)]
    raises a [ValueError] over 4300 digits, whose text does not contain
    "position": the [except ValueError] branch reports it as an invalid
    value.  The [: {str(e)}] suffix of the messages is elided. *)
Definition validate_mutation_string (mutation_str : string) : validation :=
  match regex_match (Py.upper mutation_str) with
  | None =>
      Invalid ("Invalid format for '" ++ mutation_str ++
               "'. Expected format is like 'C123T', '123-', or '123A'.")
  | Some (ref_char, pos_str, alt_char) =>
      match Py.py_int pos_str with
      | None => Invalid ("Invalid value in '" ++ mutation_str ++ "'")
      | Some n =>
          let position := Z.of_nat n in
          if Z.leb position 0 then
            Invalid ("Invalid position in '" ++ mutation_str ++ "'")
          else Valid (mk_mutation_data position ref_char alt_char)
      end
  end.

(** The strings the validators admit for [ref] and [alt]. *)
Definition canonical_refs : list string := [""; "A"; "C"; "G"; "T"; "N"].
Definition canonical_alts : list string := ["A"; "C"; "G"; "T"; "N"; "-"].

(** The canonical string of a parsed mutation, [f"{ref}{position}{alt}"]. *)
Definition format (d : mutation_data) : string :=
  Signatures.code (md_ref d) (md_position d) (md_alt d).

End Mutation.

(* ------------------------------------------------------------------ *)
(** ** The pydantic models of src/api/signatures.py *)

Module SignaturesApi.
Import Mutation.








(** [validate_mutation_strings]: [(all_valid, valid_mutations, error_messages)]. *)
Definition validate_step (acc : bool * list string * list string)
    (mutation_str : string) : bool * list string * list string :=
  let '(all_valid, valid_mutations, error_messages) := acc in
  match validate_mutation_string mutation_str with
  | Valid _ => (all_valid, app valid_mutations [mutation_str], error_messages)
  | Invalid error_message => (false, valid_mutations, app error_messages [error_message])
  end.

Definition validate_mutation_strings (mutations_str_list : list string)
    : bool * list string * list string :=
  fold_left validate_step mutations_str_list (true, [], []).

(** Whether [Mutation.validate_mutation_string] accepts a string, and its
    error message otherwise. *)
Definition accepted (s : string) : bool :=
  match validate_mutation_string s with Valid _ => true | Invalid _ => false end.

Definition error_of (s : string) : list string :=
  match validate_mutation_string s with Valid _ => [] | Invalid e => [e] end.

Record variant_info := mk_variant_info {
  short : string;
  pangolin : string;
  nextstrain : string
}.

(** A [VariantDefinition]; [mut] is the dict after [convert_string_keys_to_int],
    as its [(position, change)] items in iteration order. *)
Record variant_definition := mk_variant_definition {
  variant : variant_info;
  mut : list (Z * string)
}.

(** The [Variant] model of src/api/signatures.py. *)
Record sig_variant := mk_sig_variant {
  v_name : string;
  v_short_name : string;
  v_nextstrain_name : string;
  v_signature_mutations : list string
}.

(** pydantic's [==] on two [Variant]s compares their fields. *)
Definition sig_variant_eq_dec (a b : sig_variant) : {a = b} + {a <> b}.
Proof. decide equality; try apply list_eq_dec; apply string_dec. Defined.

Definition from_variant_definition (variant_def : variant_definition) : sig_variant :=
  mk_sig_variant (pangolin (variant variant_def)) (short (variant variant_def))
    (nextstrain (variant variant_def))
    (flat_map (fun '(pos, change) => Signatures.format_mutation pos change)
              (mut variant_def)).

(** [VariantList]: its [variants] list; [remove_variant] is [list.remove],
    which raises [ValueError] ([None]) when the variant is absent. *)
Definition add_variant (variants : list sig_variant) (v : sig_variant) : list sig_variant :=
  app variants [v].

Fixpoint remove_variant (variants : list sig_variant) (v : sig_variant)
    : option (list sig_variant) :=
  match variants with
  | [] => None
  | x :: rest =>
      if sig_variant_eq_dec x v then Some rest
      else option_map (cons x) (remove_variant rest v)
  end.

Definition get_variant_by_name (variants : list sig_variant) (name : string)
    : option sig_variant :=
  find (fun v => String.eqb (v_name v) name) variants.

(** [get_variant_list] on the definitions that loaded. *)
Definition get_variant_list (variant_defs : list variant_definition) : list sig_variant :=
  fold_left (fun vl d => add_variant vl (from_variant_definition d)) variant_defs [].

Definition get_variant_names (variant_defs : list variant_definition) : list string :=
  map v_name (get_variant_list variant_defs).

Definition example_definition : variant_definition :=
  mk_variant_definition (mk_variant_info "LP.8" "LP.8" "")
    [(28881%Z, "GGG>AAC"); (29734%Z, "--"); (241%Z, "C>T")].

End SignaturesApi.

(* ------------------------------------------------------------------ *)
(** ** The mutation-variant matrix of the signature composer *)

Module Composer.

(** A selected [Variant]: its name and its signature mutations. *)
Record variant := mk_variant {
  name : string;
  signature_mutations : list string
}.

(** Python's [<] on strings: code-point order. *)
Fixpoint str_ltb (a b : string) : bool :=
  match a, b with
  | EmptyString, EmptyString => false
  | EmptyString, String _ _ => true
  | String _ _, EmptyString => false
  | String x a', String y b' =>
      if Nat.ltb (nat_of_ascii x) (nat_of_ascii y) then true
      else if Ascii.eqb x y then str_ltb a' b' else false
  end.

(** Insertion after the elements not greater than [x]. *)
Fixpoint insert_by {A} (lt : A -> A -> bool) (x : A) (l : list A) : list A :=
  match l with
  | [] => [x]
  | y :: l' => if lt x y then x :: y :: l' else y :: insert_by lt x l'
  end.

(** A stable sort ([sorted], [list.sort]) for the strict order [lt]. *)
Definition sort_by {A} (lt : A -> A -> bool) (l : list A) : list A :=
  fold_left (fun acc x => insert_by lt x acc) l [].

(** [sorted(list(set(...)))] of the union of the signature mutations. *)
Definition all_mutations (vs : list variant) : list string :=
  sort_by str_ltb (nodup string_dec (flat_map signature_mutations vs)).

(** [extract_position]: the position group of the validator's regex on
    the upper-cased string, or 0. *)
Definition extract_position (mutation_str : string) : nat :=
  match Mutation.regex_match (Py.upper mutation_str) with
  | Some (_, pos, _) => Py.int_of_digits pos
  | None => 0
  end.

(** A row of [matrix_data]: the mutation and one 0/1 cell per variant,
    in the order of [combined_variants.variants]. *)
Definition row (vs : list variant) (mutation : string) : string * list nat :=
  (mutation, map (fun v => if existsb (String.eqb mutation) (signature_mutations v)
                           then 1 else 0) vs).

(** A DataFrame built from rows and column labels, by position. *)
Definition frame := (list string * list (string * list nat))%type.

(** [matrix_df] as the composer page builds it: rows sorted by
    descending position (stable), variant column labels sorted
    alphabetically, the cells left in insertion order. *)
Definition composer_matrix (vs : list variant) : frame :=
  let matrix_data := map (row vs) (all_mutations vs) in
  let matrix_data :=
    sort_by (fun r1 r2 => Nat.ltb (extract_position (fst r2)) (extract_position (fst r1)))
            matrix_data in
  let variant_columns := sort_by str_ltb (map name vs) in
  ("Mutation" :: variant_columns, matrix_data).

(** [matrix_df] as the multi-variant signatures page builds it. *)
Definition sibling_matrix (vs : list variant) : frame :=
  ("Mutation" :: map name vs, map (row vs) (all_mutations vs)).

Fixpoint index_of (x : string) (l : list string) : option nat :=
  match l with
  | [] => None
  | y :: l' => if String.eqb x y then Some 0
               else option_map S (index_of x l')
  end.

(** [matrix_df.loc[m, v]], with ["Mutation"] as the index column. *)
Definition cell (df : frame) (m v : string) : option nat :=
  match find (fun r => String.eqb (fst r) m) (snd df), index_of v (tl (fst df)) with
  | Some r, Some i => nth_error (snd r) i
  | _, _ => None
  end.

(** Two variants selected with their names out of alphabetical order. *)
Definition example_variants : list variant :=
  [mk_variant "XBB" ["C241T"]; mk_variant "BA.2" ["A123T"]].

End Composer.

(* ------------------------------------------------------------------ *)
(** ** The shared-mutation matrix of the composer page *)

Module ComposerCompare.
Import Composer.

(** [set(variant.signature_mutations)] *)
Definition mutation_set (v : variant) : gset string := list_to_set (signature_mutations v).

(** [len(mutations1.intersection(mutations2))] *)
Definition shared_count (variant1 variant2 : variant) : nat :=
  size (mutation_set variant1 ∩ mutation_set variant2).

(** [variant_comparison], row [i] and column [j] for the [i]-th and
    [j]-th selected variants. *)
Definition variant_comparison (vs : list variant) : list (list nat) :=
  map (fun variant1 => map (fun variant2 => shared_count variant1 variant2) vs) vs.

(** [variant_comparison.iloc[i, j]] ([None] out of range). *)
Definition iloc (m : list (list nat)) (i j : nat) : option nat :=
  match nth_error m i with
  | Some r => nth_error r j
  | None => None
  end.

End ComposerCompare.

(* ------------------------------------------------------------------ *)
(** ** [WiseLoculusLapis.fetch_mutation_counts_and_coverage]
       (src/app/api/wiseloculus.py) *)

Module Aggregator.

(** One element of the count service's [data] array. *)
Record entry := mk_entry {
  sampling_date : string;
  count : nat
}.

Inductive exn :=
| NotImplementedError (msg : string)
| TypeError (msg : string)
| IndexError (msg : string).

(** A value or the ["NA"] sentinel. *)
Inductive na_or (A : Type) := NA | Val (a : A).
Arguments NA {A}.
Arguments Val {A} a.

(** An element of ["stratified"]. *)
Record strat := mk_strat {
  st_date : string;
  st_coverage : nat;
  st_frequency : na_or Q;
  st_count : na_or nat
}.

(** An element of [combined_results]. *)
Record result := mk_result {
  res_mutation : string;
  res_coverage : nat;
  res_frequency : Q;
  res_counts : list (string * nat);
  res_stratified : list strat
}.

(** The count service: for a query mutation string and a mutation type,
    the [data] array of a 200 response, or [None] for any other status. *)
Definition service := string -> string -> option (list entry).

(** [fetch_sample_aggregated]: the ["data"] field of its result. *)
Definition fetch_sample_aggregated (svc : service)
    (mutation mutation_type : string) : option (list entry) :=
  if String.eqb mutation_type "aminoAcid" || String.eqb mutation_type "nucleotide"
  then svc mutation mutation_type
  else None.

Definition nucleotides : list string := ["A"; "T"; "C"; "G"].
Definition amino_acids : list string :=
  ["A"; "C"; "D"; "E"; "F"; "G"; "H"; "I"; "K";
   "L"; "M"; "N"; "P"; "Q"; "R"; "S"; "T";
   "V"; "W"; "Y"].

(** [mutation[-1]] (an [IndexError] on the empty string). *)
Definition py_last (s : string) : option string :=
  match String.length s with
  | O => None
  | S k => Some (substring k 1 s)
  end.

(** [mutation[:-1]] *)
Definition py_init (s : string) : string :=
  substring 0 (String.length s - 1) s.

Definition list_sum (l : list nat) : nat := fold_right Nat.add 0 l.

(** [d.get(k, default)] on a dictionary kept as an association list. *)
Definition dict_get (d : list (string * nat)) (k : string) (default : nat) : nat :=
  match find (fun p => String.eqb (fst p) k) d with
  | Some (_, v) => v
  | None => default
  end.

(** [d[k] += c] *)
Definition dict_add (d : list (string * nat)) (k : string) (c : nat)
    : list (string * nat) :=
  map (fun p => if String.eqb (fst p) k then (fst p, snd p + c) else p) d.

(** Python's true division of two ints (exact quotient). *)
Definition div_q (a b : nat) : Q := inject_Z (Z.of_nat a) / inject_Z (Z.of_nat b).

(** [stratified_results]: date -> (counts, coverage), in insertion order. *)
Definition strat_acc := list (string * (list (string * nat) * nat)).

(** One iteration of the inner [for entry in item['data']] loop. *)
Definition strat_step (symbols : list string) (acc : strat_acc) (nt : string)
    (e : entry) : strat_acc :=
  let date := sampling_date e in
  let acc' := if existsb (String.eqb date) (map fst acc) then acc
              else app acc [(date, (map (fun n => (n, 0)) symbols, 0))] in
  map (fun p => if String.eqb (fst p) date
                then (fst p, (dict_add (fst (snd p)) nt (count e),
                              snd (snd p) + count e))
                else p) acc'.

(** [for nt, item in zip(symbols, coverage_results): for entry in item['data']]:
    iterating over [None] raises a [TypeError]. *)
Fixpoint stratify (symbols : list string) (acc : strat_acc)
    (items : list (string * option (list entry))) : exn + strat_acc :=
  match items with
  | [] => inr acc
  | (nt, None) :: _ => inl (TypeError "'NoneType' object is not iterable")
  | (nt, Some l) :: rest =>
      stratify symbols (fold_left (fun a e => strat_step symbols a nt e) l acc) rest
  end.

Definition strat_record (target : string) (p : string * (list (string * nat) * nat))
    : strat :=
  let '(date, (counts, coverage)) := p in
  mk_strat date coverage
    (if Nat.ltb 0 coverage
     then Val (div_q (dict_get counts target 0) coverage) else NA)
    (if Nat.ltb 0 coverage then Val (dict_get counts target 0) else NA).

(** The body of the [for mutation in mutations] loop for one branch
    ([symbols] is the alphabet of the branch, [qtype] the type passed to
    [fetch_sample_aggregated]).  Returns the queries dispatched and the
    outcome. *)
Definition process_mutation (svc : service) (qtype : string)
    (symbols : list string) (mutation : string)
    : list string * (exn + result) :=
  match py_last mutation with
  | None => ([], inl (IndexError "string index out of range"))
  | Some target_symbol =>
      let queries := map (fun nt => py_init mutation ++ nt) symbols in
      let coverage_results :=
        map (fun q => fetch_sample_aggregated svc q qtype) queries in
      let items := combine symbols coverage_results in
      let coverage_data :=
        map (fun p => (fst p, match snd p with
                              | Some l => list_sum (map count l)
                              | None => 0
                              end)) items in
      let total_coverage := list_sum (map snd coverage_data) in
      let frequency :=
        if Nat.ltb 0 total_coverage
        then div_q (dict_get coverage_data target_symbol 0) total_coverage
        else 0%Q in
      (queries,
       match stratify symbols [] items with
       | inl ex => inl ex
       | inr acc =>
           inr (mk_result mutation total_coverage frequency coverage_data
                  (map (strat_record target_symbol) acc))
       end)
  end.

(** The branch on [mutation_type] inside the loop. *)
Definition branch (mutation_type : string) : option (list string * string) :=
  if String.eqb mutation_type "aminoAcid" then Some (amino_acids, "aminoAcid")
  else if String.eqb mutation_type "nucleotide" then Some (nucleotides, "nucleotide")
  else None.

Fixpoint mutation_loop (svc : service) (mutation_type : string)
    (mutations : list string) : list string * (exn + list result) :=
  match mutations with
  | [] => ([], inr [])
  | m :: ms =>
      match branch mutation_type with
      | None => ([], inl (NotImplementedError ("Unknown mutation type: " ++ mutation_type)))
      | Some (symbols, qtype) =>
          let '(qs, r) := process_mutation svc qtype symbols m in
          match r with
          | inl ex => (qs, inl ex)
          | inr res =>
              let '(qs', r') := mutation_loop svc mutation_type ms in
              (app qs qs',
               match r' with
               | inl ex => inl ex
               | inr rs => inr (res :: rs)
               end)
          end
      end
  end.

(** [fetch_mutation_counts_and_coverage]: the queries dispatched, and the
    list of results or the exception raised. *)
(** Reading aids for the statements below: the data returned for the query
    of symbol [nt], its count on date [d], and its count over all dates. *)
Definition opt_data (o : option (list entry)) : list entry :=
  match o with Some l => l | None => [] end.

Definition date_count (l : list entry) (d : string) : nat :=
  list_sum (map count (List.filter (fun e => String.eqb (sampling_date e) d) l)).

Definition total_count (l : list entry) : nat := list_sum (map count l).

Definition symbol_data (svc : service) (qtype mutation nt : string) : list entry :=
  opt_data (fetch_sample_aggregated svc (py_init mutation ++ nt) qtype).

(** [counts.get(target_symbol, 0)] on date [d], and over all dates. *)
Definition target_date_count (svc : service) (qtype : string) (syms : list string)
    (mutation target d : string) : nat :=
  if existsb (String.eqb target) syms
  then date_count (symbol_data svc qtype mutation target) d else 0.

Definition target_total_count (svc : service) (qtype : string) (syms : list string)
    (mutation target : string) : nat :=
  if existsb (String.eqb target) syms
  then total_count (symbol_data svc qtype mutation target) else 0.

Definition fetch_mutation_counts_and_coverage (svc : service)
    (mutations : list string) (mutation_type : string)
    : list string * (exn + list result) :=
  if negb (existsb (String.eqb mutation_type) ["nucleotide"]) then
    ([], inl (NotImplementedError ("Unknown mutation type: " ++ mutation_type)))
  else mutation_loop svc mutation_type mutations.

End Aggregator.

(** Count services used as concrete inputs below. *)
Module AggregatorExamples.
Import Aggregator.

(** Reads at position 123 on one date: 10 A, 5 T, 3 C, 2 G. *)
Definition svc_counts : service := fun q _ =>
  if String.eqb q "A123A" then Some [mk_entry "2025-01-01" 10]
  else if String.eqb q "A123T" then Some [mk_entry "2025-01-01" 5]
  else if String.eqb q "A123C" then Some [mk_entry "2025-01-01" 3]
  else if String.eqb q "A123G" then Some [mk_entry "2025-01-01" 2]
  else Some [].

(** Every query answers one date with a zero count. *)
Definition svc_zero : service := fun _ _ => Some [mk_entry "2025-01-01" 0].

(** As [svc_counts], but the query for [A123C] gets a non-200 answer. *)
Definition svc_fail : service := fun q t =>
  if String.eqb q "A123C" then None else svc_counts q t.

End AggregatorExamples.

(* ------------------------------------------------------------------ *)
(** ** The deconvolution task and its progress record *)

Module Worker.

(** Exceptions: [Exception] subclasses (with their [str]) and
    [SystemExit], raised by the builtin [exit], which is not one. *)
Inductive py_exn :=
| Exception (msg : string)
| SystemExit (code : nat).

(** The job inputs, as [run_deconvolve] tells them apart. *)
Inductive job_input :=
| Frames                      (* both already DataFrames *)
| Pickled                     (* both str, base64 pickles *)
| JsonText                    (* both str, pickle fails, JSON parses *)
| BadText (msg : string)      (* both str, pickle fails, [read_json] raises [msg] *)
| Other.                      (* neither both DataFrames nor both str *)

(** What [devconvolve] does: return the deconvolved data; hit a
    [CalledProcessError] in one of its subprocesses (gawk, head, the xsv
    pipeline, lollipop), which it turns into [exit(1)]; or raise an
    [Exception] (e.g. [json.loads] on a malformed lollipop output). *)
Inductive engine :=
| EngineOk (data : string)
| EngineExit
| EngineError (msg : string).

(** [progress_data], stored as JSON under [task_progress:<id>]. *)
Record progress := mk_progress {
  current : Q;
  total : nat;
  status : string;
  partial_results : option string
}.

Inductive outcome :=
| Returned (data : string)
| Raised (e : py_exn).

(** [update_progress(stage, message)] on the shared [progress_data]. *)
Definition update_progress (stage : Q) (message : string) (p : progress) : progress :=
  mk_progress stage (total p) message (partial_results p).

Definition with_status (message : string) (p : progress) : progress :=
  mk_progress (current p) (total p) message (partial_results p).

(** The [except Exception as e] handler of the task: record the error and
    re-raise. *)
Definition on_exception (writes : list progress) (p : progress) (msg : string)
    : list progress * outcome :=
  let p' := with_status ("Error: " ++ msg) p in
  (app writes [p'], Raised (Exception msg)).

(** From [update_progress(3, ...)] on. *)
Definition run_engine (writes : list progress) (p : progress) (eng : engine)
    : list progress * outcome :=
  let p3 := update_progress 3 "Running deconvolution algorithm" p in
  let writes := app writes [p3] in
  match eng with
  | EngineOk data =>
      let p4 := update_progress 4 "Processing results" p3 in
      let p5 := mk_progress 5 5 "Completed" (Some "Deconvolution completed successfully") in
      (app writes [p4; p5], Returned data)
  | EngineExit => (writes, Raised (SystemExit 1))
  | EngineError msg => on_exception writes p3 msg
  end.

(** [run_deconvolve]: the successive values written to the progress key,
    and how the task ends.  [bootstraps] is the text the status shows for
    it; the messages that print types and shapes are abbreviated. *)
Definition run_deconvolve (inp : job_input) (eng : engine) (bootstraps : string)
    : list progress * outcome :=
  let p0 := mk_progress 0 5 "Preparing input data" None in
  let p1 := update_progress 1
              ("Preparing deconvolution (bootstraps=" ++ bootstraps ++ ")") p0 in
  let p15 := update_progress (3 # 2) "Input types: ..." p1 in
  let writes := [p0; p1; p15] in
  match inp with
  | Frames =>
      let p2 := update_progress 2 "Inputs are already DataFrames, no parsing needed" p15 in
      run_engine (app writes [p2]) p2 eng
  | Pickled =>
      let p2 := update_progress 2 "Successfully unpickled DataFrames, shapes: ..." p15 in
      run_engine (app writes [p2]) p2 eng
  | JsonText =>
      let p2 := update_progress 2 "Successfully parsed JSON DataFrames, shapes: ..." p15 in
      run_engine (app writes [p2]) p2 eng
  | BadText msg =>
      let e1 := "Failed to deserialize DataFrames: " ++ msg in
      let p2 := update_progress 2
                  ("Error parsing DataFrames with both pickle and JSON methods: " ++ msg) p15 in
      let p2' := update_progress 2 ("Error processing DataFrames: " ++ e1) p2 in
      on_exception (app writes [p2; p2']) p2' ("Failed to process DataFrames: " ++ e1)
  | Other => run_engine writes p15 eng
  end.

Definition is_bad_text (inp : job_input) : bool :=
  match inp with BadText _ => true | _ => false end.

End Worker.

(* ------------------------------------------------------------------ *)
(** ** [long_running_task] (src/worker/tasks.py) *)

Module LongTask.
Import Py.

(** One entry of [result["results"]]. *)
Record iteration_result := mk_iteration_result {
  iteration : Z;
  timestamp : Q;
  value : Q
}.

(** [progress_data], stored as JSON under [task_progress:<id>]: the JSON
    text is taken at the time of the write, so each stored record holds
    the results list as it was then. *)
Record task_progress := mk_task_progress {
  tp_current : Z;
  tp_total : Z;
  tp_status : string;
  tp_partial_results : list iteration_result
}.

(** The [result] dictionary the task returns. *)
Record task_result := mk_task_result {
  iterations_completed : Z;
  total_iterations : Z;
  results : list iteration_result
}.

(** [iteration_result] of the loop index [i]; [clock i] is [time.time()]
    after the [i]-th sleep (Python's float product is taken exactly). *)
Definition iteration_result_of (sleep_time : Q) (clock : nat -> Q) (i : nat)
    : iteration_result :=
  mk_iteration_result (Z.of_nat i + 1) (clock i) (inject_Z (Z.of_nat i + 1) * sleep_time).

(** [time.sleep(secs)]: [Some message] is the [ValueError] it raises on a
    negative length. *)
Definition time_sleep (secs : Q) : option string :=
  if Qle_bool 0 secs then None else Some "sleep length must be non-negative".

(** The state of the loop: the records written so far, and either the
    [result] dictionary or the message of the exception that left the
    loop (the task raises it; later passes do not run). *)
Definition loop_state : Type := list task_progress * (string + task_result).

(** One pass of [for i in range(n_iterations)]: sleep, append the
    iteration result, update [iterations_completed], write the progress
    record. *)
Definition iteration_step (n_iterations : Z) (sleep_time : Q) (clock : nat -> Q)
    (st : loop_state) (i : nat) : loop_state :=
  match st with
  | (writes, inl e) => (writes, inl e)
  | (writes, inr result) =>
      match time_sleep sleep_time with
      | Some e => (writes, inl e)
      | None =>
          let rs := app (results result) [iteration_result_of sleep_time clock i] in
          let result' := mk_task_result (Z.of_nat i + 1) (total_iterations result) rs in
          let progress_data :=
            mk_task_progress (Z.of_nat i + 1) n_iterations
              ("Processing iteration " ++ str_Z (Z.of_nat i + 1) ++ "/" ++ str_Z n_iterations) rs in
          (app writes [progress_data], inr result')
      end
  end.

(** [long_running_task(n_iterations, sleep_time)]: the successive values
    written to the progress key, and the returned [result] ([inr]) or the
    message of the [ValueError] the task raises ([inl]).
    [range(n_iterations)] is empty for [n_iterations <= 0]. *)
Definition long_running_task (n_iterations : Z) (sleep_time : Q) (clock : nat -> Q)
    : loop_state :=
  let result0 := mk_task_result 0 n_iterations [] in
  match fold_left (iteration_step n_iterations sleep_time clock)
          (seq 0 (Z.to_nat n_iterations)) ([], inr result0) with
  | (writes, inl e) => (writes, inl e)
  | (writes, inr result) =>
      let progress_data := mk_task_progress n_iterations n_iterations "Completed" (results result) in
      (app writes [progress_data], inr result)
  end.

End LongTask.

(* ------------------------------------------------------------------ *)
(** ** The variant registry of the composer's session state *)

Module Registry.

Inductive variant_source := CURATED | CUSTOM_COVSPECTRUM | CUSTOM_MANUAL.

(** A registry value: [{'name', 'signature_mutations', 'source'}]. *)
Record registered := mk_registered {
  r_name : string;
  r_signature_mutations : list string;
  r_source : variant_source
}.

(** [st.session_state.variant_registry]: a dict keyed by variant name. *)
Definition registry := gmap string registered.

(** What the page shows: [st.warning], [st.error], [st.success]. *)
Inductive ui_message :=
| Warning (text : string)
| Error (text : string)
| Success (text : string).

(** [register_variant]: [variant_registry[name] = {...}]. *)
Definition register_variant (reg : registry) (name : string)
    (signature_mutations : list string) (source : variant_source) : registry :=
  <[name := mk_registered name signature_mutations source]> reg.

(** [is_variant_registered]: [name in variant_registry]. *)
Definition is_variant_registered (reg : registry) (name : string) : bool :=
  match reg !! name with Some _ => true | None => false end.

Definition exists_warning (name : string) : ui_message :=
  Warning ("Variant '" ++ name ++ "' already exists in the list. Please choose a different name.").

(** How a button handler ends: it runs to its end (or to [st.rerun()]),
    or it raises. *)
Inductive handler_end :=
| Finished
| AttributeError (msg : string).

(** Both buttons call [VariantSignatureComposerState.get_selected_custom_names()]
    right after [register_variant]; the class defines no such method. *)
Definition missing_attribute_error : handler_end :=
  AttributeError "type object 'VariantSignatureComposerState' has no attribute 'get_selected_custom_names'".


(** [not s.strip()], for ASCII whitespace. *)
Definition is_space (c : ascii) : bool :=
  let n := nat_of_ascii c in Nat.eqb n 32 || (Nat.leb 9 n && Nat.leb n 13).

Fixpoint is_blank (s : string) : bool :=
  match s with
  | EmptyString => true
  | String c s' => is_space c && is_blank s'
  end.

(** The "Add Manual Variant" button, on the stripped, non-empty pieces of
    the comma-separated input: the registry after the click, the messages
    shown, and how the handler ends. *)
Definition add_manual_variant (reg : registry) (manual_variant_name : string)
    (mutations_str_list : list string) : registry * list ui_message * handler_end :=
  if is_blank manual_variant_name
  then (reg, [Error "Manual Variant Name cannot be empty."], Finished)
  else
    let empty_warning :=
      match mutations_str_list with
      | [] => [Warning ("No mutations entered for '" ++ manual_variant_name ++
                        "'. It will be added with an empty signature if the name is unique.")]
      | _ => []
      end in
    let errors :=
      flat_map (fun m => match Mutation.validate_mutation_string m with
                         | Mutation.Valid _ => []
                         | Mutation.Invalid e => [Error ("Invalid mutation: " ++ e)]
                         end) mutations_str_list in
    let validated_signature_mutations :=
      List.filter (fun m => match Mutation.validate_mutation_string m with
                            | Mutation.Valid _ => true
                            | Mutation.Invalid _ => false
                            end) mutations_str_list in
    match errors with
    | _ :: _ => (reg, app empty_warning errors, Finished)
    | [] =>
        if is_variant_registered reg manual_variant_name
        then (reg, app empty_warning [exists_warning manual_variant_name], Finished)
        else (register_variant reg manual_variant_name validated_signature_mutations
                CUSTOM_MANUAL,
              empty_warning, missing_attribute_error)
    end.

(** Every piece passes [Mutation.validate_mutation_string]. *)
Definition all_valid (muts : list string) : Prop :=
  Forall (fun m => exists d, Mutation.validate_mutation_string m = Mutation.Valid d) muts.

(** A registry holding the curated variant [LP.8]. *)
Definition example_registry : registry :=
  {[ "LP.8" := mk_registered "LP.8" ["C241T"] CURATED ]}.

End Registry.

(* ------------------------------------------------------------------ *)
(** ** The rest of [VariantSignatureComposerState] (src/app/state.py) and
       the curated-selection sync of the composer page *)

Module RegistryState.
Import Registry SignaturesApi.

Definition source_eqb (a b : variant_source) : bool :=
  match a, b with
  | CURATED, CURATED | CUSTOM_COVSPECTRUM, CUSTOM_COVSPECTRUM
  | CUSTOM_MANUAL, CUSTOM_MANUAL => true
  | _, _ => false
  end.

(** [unregister_variant]: [del variant_registry[name]] if present. *)
Definition unregister_variant (reg : registry) (name : string) : registry :=
  if is_variant_registered reg name then delete name reg else reg.

(** [get_variants_by_source]: the registered values of that source.
    (The dict's iteration order is not modelled: [map_to_list] lists the
    entries in the map's own order.) *)
Definition get_variants_by_source (reg : registry) (source : variant_source)
    : list registered :=
  List.filter (fun variant => source_eqb (r_source variant) source)
    (map snd (map_to_list reg)).

(** The page's [Variant.from_signature_variant]. *)
Definition from_signature_variant (signature_variant : sig_variant) : Composer.variant :=
  Composer.mk_variant (v_name signature_variant) (v_signature_mutations signature_variant).

(** [curated_variant_map[name]] for [{v.name: v for v in all_curated_variants}]:
    the last variant of that name. *)
Definition curated_variant_map_lookup (all_curated_variants : list sig_variant)
    (name : string) : option sig_variant :=
  find (fun v => String.eqb (v_name v) name) (rev all_curated_variants).

(** First loop: unregister the curated variants no longer selected, over a
    snapshot of the registry's items. *)
Definition unregister_deselected_step (selected_curated_variants : list string)
    (r : registry) (item : string * registered) : registry :=
  let '(variant_name, variant_data) := item in
  if source_eqb (r_source variant_data) CURATED
     && negb (existsb (String.eqb variant_name) selected_curated_variants)
  then unregister_variant r variant_name
  else r.

Definition unregister_deselected (reg : registry) (selected_curated_variants : list string)
    : registry :=
  fold_left (unregister_deselected_step selected_curated_variants) (map_to_list reg) reg.

(** Second loop: register every selected curated variant not registered yet. *)
Definition register_selected_step (all_curated_variants : list sig_variant)
    (r : registry) (name : string) : registry :=
  match curated_variant_map_lookup all_curated_variants name with
  | Some variant_to_add =>
      if is_variant_registered r name then r
      else
        let signature_variant := from_signature_variant variant_to_add in
        register_variant r (Composer.name signature_variant)
          (Composer.signature_mutations signature_variant) CURATED
  | None => r
  end.

(** The registry update of the composer page when the curated selection
    changes (src/app/subpages/variant_signature_composer.py). *)
Definition sync_curated_selection (reg : registry) (selected_curated_variants : list string)
    (all_curated_variants : list sig_variant) : registry :=
  fold_left (register_selected_step all_curated_variants) selected_curated_variants
    (unregister_deselected reg selected_curated_variants).

(** The sync the composer page runs on every run, after the selection
    widget: unregister the curated variants of [combined_variants] no
    longer selected (and not custom), then register every selected curated
    variant whose name is not in [combined_variants], as [CURATED].
    [combined] is [combined_variants.variants], the list kept in
    [st.session_state.combined_variants_object]. *)
Definition sync_combined_variants (reg : registry) (combined : list Composer.variant)
    (selected_curated_variants : list string) (all_curated_variants : list sig_variant)
    : registry :=
  let curated_names := map v_name all_curated_variants in
  let custom_variant_names :=
    map r_name (List.filter (fun variant_data =>
                               source_eqb (r_source variant_data) CUSTOM_COVSPECTRUM
                               || source_eqb (r_source variant_data) CUSTOM_MANUAL)
                            (map snd (map_to_list reg))) in
  let variants_to_remove :=
    List.filter (fun v =>
                   existsb (String.eqb (Composer.name v)) curated_names
                   && negb (existsb (String.eqb (Composer.name v)) selected_curated_variants)
                   && negb (existsb (String.eqb (Composer.name v)) custom_variant_names))
                combined in
  let reg := fold_left (fun r v => unregister_variant r (Composer.name v)) variants_to_remove reg in
  match selected_curated_variants with
  | [] => reg
  | _ =>
      let existing_variant_names := map Composer.name combined in
      fold_left (fun r name =>
                   if negb (existsb (String.eqb name) existing_variant_names)
                   then match curated_variant_map_lookup all_curated_variants name with
                        | Some variant_to_add =>
                            let signature_variant := from_signature_variant variant_to_add in
                            register_variant r (Composer.name signature_variant)
                              (Composer.signature_mutations signature_variant) CURATED
                        | None => r
                        end
                   else r)
                selected_curated_variants reg
  end.

Definition example_curated : list sig_variant :=
  [mk_sig_variant "LP.8" "LP.8" "" ["C241T"]; mk_sig_variant "BA.2" "BA.2" "" ["A123T"]].

End RegistryState.

(* ------------------------------------------------------------------ *)
(** ** The invariant of the stratification loop *)

Module AggregatorInv.
Import Aggregator.

(** Counts of the processed [(symbol, entry)] pairs on date [d]: all of
    them, and those of symbol [n]. *)
Definition tot (P : list (string * entry)) (d : string) : nat :=
  list_sum (map (fun p => count (snd p))
    (List.filter (fun p => String.eqb (sampling_date (snd p)) d) P)).

Definition per (P : list (string * entry)) (n d : string) : nat :=
  list_sum (map (fun p => count (snd p))
    (List.filter (fun p => String.eqb (fst p) n && String.eqb (sampling_date (snd p)) d) P)).

(** The invariant of [stratified_results] after the pairs [P]. *)
Definition strat_inv (syms : list string) (P : list (string * entry))
    (acc : strat_acc) : Prop :=
  (forall d cs cov, In (d, (cs, cov)) acc ->
     cov = tot P d /\ map fst cs = syms /\ forall n, dict_get cs n 0 = per P n d) /\
  (forall d, ~ In d (map fst acc) -> tot P d = 0 /\ forall n, per P n d = 0) /\
  (forall p, In p P -> In (fst p) syms).

(** The pairs the stratification loop visits. *)
Definition items_entries (items : list (string * option (list entry)))
    : list (string * entry) :=
  flat_map (fun p => map (pair (fst p)) (opt_data (snd p))) items.

End AggregatorInv.

(* ------------------------------------------------------------------ *)
(** ** [fetch_counts_and_coverage_3D_df_nuc] (src/app/api/wiseloculus.py) *)

Module AggregatorMore.
Import Aggregator AggregatorInv.

(** Reading aids: a list of dates with duplicates dropped, in the order
    of first appearance (the key order of a dict filled in that order),
    and the sampling dates the four queries of a mutation return, in
    query order. *)
Definition add_new (ds : list string) (d : string) : list string :=
  if existsb (String.eqb d) ds then ds else app ds [d].

Definition first_appearance (ds : list string) : list string := fold_left add_new ds [].

Definition query_dates (svc : service) (mutation : string) : list string :=
  flat_map (fun nt => map sampling_date (symbol_data svc "nucleotide" mutation nt))
    nucleotides.

(** A row of [records]: ["mutation"], ["sampling_date"], ["count"],
    ["coverage"], ["frequency"]. *)
Record record := mk_record {
  rec_mutation : string;
  rec_sampling_date : string;
  rec_count : na_or nat;
  rec_coverage : nat;
  rec_frequency : na_or Q
}.

Definition records_of (all_data : list result) : list record :=
  flat_map (fun mutation_data =>
              map (fun st => mk_record (res_mutation mutation_data) (st_date st)
                               (st_count st) (st_coverage st) (st_frequency st))
                  (res_stratified mutation_data))
           all_data.

(** What the function raises: an exception of the aggregator, or the
    [KeyError] of [set_index] on a DataFrame without columns. *)
Inductive df_exn :=
| Raised (e : exn)
| KeyError (msg : string).

(** A row of the DataFrame: its [(mutation, sampling_date)] index and its
    [count], [coverage], [frequency] columns. *)
Definition df_row := ((string * string) * (na_or nat * nat * na_or Q))%type.

(** [pd.DataFrame(records).set_index(["mutation", "sampling_date"])]:
    [pd.DataFrame([])] has no columns, so [set_index] raises. *)
Definition set_index (records : list record) : df_exn + list df_row :=
  match records with
  | [] => inl (KeyError "None of ['mutation', 'sampling_date'] are in the columns")
  | _ => inr (map (fun r => ((rec_mutation r, rec_sampling_date r),
                             (rec_count r, rec_coverage r, rec_frequency r))) records)
  end.

Definition fetch_counts_and_coverage_3D_df_nuc (svc : service) (mutations : list string)
    : df_exn + list df_row :=
  match snd (fetch_mutation_counts_and_coverage svc mutations "nucleotide") with
  | inl e => inl (Raised e)
  | inr all_data => set_index (records_of all_data)
  end.

End AggregatorMore.

(* ------------------------------------------------------------------ *)
(** ** Facts about the string helpers *)

Module PyFacts.
Import Py.

Lemma split_no_sep (c : ascii) (s : string) :
  contains c s = false -> split c s = [s].
Proof.
  induction s as [|x s IH]; simpl; [reflexivity|].
  destruct (Ascii.eqb c x); [discriminate|].
  intros H. rewrite (IH H). reflexivity.
Qed.

Lemma split_app_sep (c : ascii) (ref rest : string) :
  contains c ref = false ->
  split c (ref ++ String c rest) = ref :: split c rest.
Proof.
  induction ref as [|x r IH]; simpl.
  - rewrite Ascii.eqb_refl. reflexivity.
  - destruct (Ascii.eqb c x); [discriminate|].
    intros H. rewrite (IH H). reflexivity.
Qed.

Lemma contains_app_sep (c : ascii) (ref rest : string) :
  contains c (ref ++ String c rest) = true.
Proof.
  induction ref as [|x r IH]; simpl.
  - rewrite Ascii.eqb_refl. reflexivity.
  - destruct (Ascii.eqb c x); [reflexivity|exact IH].
Qed.

Lemma all_eq_app_other (x y : ascii) (ref rest : string) :
  Ascii.eqb y x = false -> all_eq x (ref ++ String y rest) = false.
Proof.
  intros Hxy. induction ref as [|z r IH]; simpl.
  - rewrite Hxy. reflexivity.
  - rewrite IH. apply andb_false_r.
Qed.

End PyFacts.

Module SignatureFacts.
Import Signatures.

Lemma dashes_all (n : nat) : Py.all_eq dash (dashes n) = true.
Proof. induction n; simpl; [reflexivity|]. rewrite IHn. reflexivity. Qed.

Lemma dashes_length (n : nat) : String.length (dashes n) = n.
Proof. induction n; simpl; congruence. Qed.

Lemma map_const_seq {A} (x : A) (start n : nat) :
  map (fun _ => x) (seq start n) = repeat x n.
Proof.
  revert start; induction n; intros start; simpl; [reflexivity|].
  rewrite IHn. reflexivity.
Qed.

Lemma flat_map_single {A B} (f : A -> list B) (g : A -> B) (l : list A) :
  (forall a, In a l -> f a = [g a]) -> flat_map f l = map g l.
Proof.
  induction l as [|a l IH]; intros H; simpl; [reflexivity|].
  rewrite (H a (or_introl eq_refl)), IH; [reflexivity|].
  intros b Hb. apply H. right. exact Hb.
Qed.

End SignatureFacts.

Module MutationFacts.
Import Py Mutation.

#[local] Arguments digit : simpl never.

Lemma digit_nat (d : nat) : d < 10 -> nat_of_ascii (digit d) = 48 + d.
Proof. intros H. unfold digit. apply nat_ascii_embedding. lia. Qed.

Lemma is_digit_digit (d : nat) : d < 10 -> is_digit (digit d) = true.
Proof.
  intros H. unfold is_digit. rewrite (digit_nat d H).
  apply andb_true_intro; split; apply Nat.leb_le; lia.
Qed.

Lemma digits_only_app (s1 s2 : string) :
  digits_only (s1 ++ s2) = digits_only s1 && digits_only s2.
Proof.
  induction s1 as [|c s1 IH]; simpl; [reflexivity|].
  rewrite IH. apply andb_assoc.
Qed.

Lemma str_nat_aux_S (f n : nat) :
  str_nat_aux (S f) n =
  if Nat.ltb n 10 then String (digit n) EmptyString
  else str_nat_aux f (n / 10) ++ String (digit (n mod 10)) EmptyString.
Proof. reflexivity. Qed.

Lemma str_nat_aux_digits (f n : nat) : digits_only (str_nat_aux f n) = true.
Proof.
  revert n; induction f as [|f IH]; intros n; [reflexivity|].
  rewrite str_nat_aux_S. destruct (Nat.ltb n 10) eqn:E.
  - apply Nat.ltb_lt in E. cbn [digits_only].
    rewrite (is_digit_digit n E). reflexivity.
  - rewrite digits_only_app, IH. cbn [digits_only andb].
    rewrite is_digit_digit by (apply Nat.mod_upper_bound; lia). reflexivity.
Qed.

Lemma int_acc_app (acc : nat) (s1 s2 : string) :
  int_of_digits_acc acc (s1 ++ s2) =
  int_of_digits_acc (int_of_digits_acc acc s1) s2.
Proof.
  revert acc; induction s1 as [|c s1 IH]; intros acc; simpl; [reflexivity|].
  apply IH.
Qed.

Lemma str_nat_aux_int (f n : nat) : n < f -> int_of_digits (str_nat_aux f n) = n.
Proof.
  revert n; induction f as [|f IH]; intros n H; [lia|].
  rewrite str_nat_aux_S. destruct (Nat.ltb n 10) eqn:E.
  - apply Nat.ltb_lt in E. unfold int_of_digits. cbn [int_of_digits_acc].
    rewrite (digit_nat n E). lia.
  - apply Nat.ltb_ge in E. unfold int_of_digits. rewrite int_acc_app.
    fold (int_of_digits (str_nat_aux f (n / 10))).
    rewrite IH.
    + cbn [int_of_digits_acc].
      rewrite digit_nat by (apply Nat.mod_upper_bound; lia).
      pose proof (Nat.div_mod_eq n 10). lia.
    + assert (n / 10 < n) by (apply Nat.div_lt; lia). lia.
Qed.

Lemma str_nat_int (n : nat) : int_of_digits (str_nat n) = n.
Proof. apply str_nat_aux_int. lia. Qed.

Lemma str_nat_digits (n : nat) : digits_only (str_nat n) = true.
Proof. apply str_nat_aux_digits. Qed.

Lemma str_nat_aux_nonempty (f n : nat) : str_nat_aux (S f) n <> EmptyString.
Proof.
  rewrite str_nat_aux_S. destruct (Nat.ltb n 10); [discriminate|].
  destruct (str_nat_aux f (n / 10)); discriminate.
Qed.

Lemma digit_not_ref (c : ascii) : is_digit c = true -> contains c ref_chars = false.
Proof.
  intros H. unfold ref_chars. simpl.
  repeat match goal with
  | |- context [Ascii.eqb c ?x] => destruct (Ascii.eqb_spec c x); [subst; discriminate|]
  end. reflexivity.
Qed.

Lemma upper_app (s1 s2 : string) : upper (s1 ++ s2) = upper s1 ++ upper s2.
Proof. induction s1 as [|c s1 IH]; simpl; congruence. Qed.

Lemma upper_digits (s : string) : digits_only s = true -> upper s = s.
Proof.
  induction s as [|c s IH]; simpl; [reflexivity|].
  intros H. apply andb_prop in H as [Hc Hs]. rewrite (IH Hs).
  unfold upper_char. unfold is_digit in Hc.
  apply andb_prop in Hc as [_ Hc]. apply Nat.leb_le in Hc.
  destruct (Nat.leb 97 (nat_of_ascii c)) eqn:E; [|reflexivity].
  apply Nat.leb_le in E. lia.
Qed.

Lemma span_digits_app (d r : string) :
  digits_only d = true ->
  match r with String a _ => is_digit a = false | EmptyString => True end ->
  span_digits (d ++ r) = (d, r).
Proof.
  intros Hd Hr. induction d as [|c d IH]; simpl.
  - destruct r as [|a r]; simpl; [reflexivity|]. rewrite Hr. reflexivity.
  - simpl in Hd. apply andb_prop in Hd as [Hc Hd]. rewrite Hc, (IH Hd).
    reflexivity.
Qed.

Lemma contains_ref_in (c : ascii) :
  contains c ref_chars = true -> In (String c EmptyString) canonical_refs.
Proof.
  unfold ref_chars. simpl. intros H.
  repeat match goal with
  | H : context [Ascii.eqb c ?x] |- _ => destruct (Ascii.eqb_spec c x); [subst; simpl; tauto|]
  end. discriminate.
Qed.

Lemma contains_alt_in (c : ascii) :
  contains c alt_chars = true -> In (String c EmptyString) canonical_alts.
Proof.
  unfold alt_chars. simpl. intros H.
  repeat match goal with
  | H : context [Ascii.eqb c ?x] |- _ => destruct (Ascii.eqb_spec c x); [subst; simpl; tauto|]
  end. discriminate.
Qed.

Lemma split_ref_canonical (ref rest : string) :
  In ref canonical_refs ->
  match rest with String c _ => is_digit c = true | EmptyString => False end ->
  split_ref (ref ++ rest) = (ref, rest).
Proof.
  intros Href Hrest.
  unfold canonical_refs in Href; simpl in Href.
  destruct Href as [<-|[<-|[<-|[<-|[<-|[<-|[]]]]]]]; try reflexivity.
  destruct rest as [|c rest]; [contradiction|].
  change ("" ++ String c rest) with (String c rest). unfold split_ref.
  rewrite (digit_not_ref c Hrest). reflexivity.
Qed.

Lemma alt_canonical (alt : string) :
  In alt canonical_alts ->
  match_alt alt = Some alt /\ upper alt = alt /\
  match alt with String a _ => is_digit a = false | EmptyString => True end.
Proof.
  unfold canonical_alts; simpl.
  intros [<-|[<-|[<-|[<-|[<-|[<-|[]]]]]]]; repeat split.
Qed.

Lemma ref_upper (ref : string) : In ref canonical_refs -> upper ref = ref.
Proof.
  unfold canonical_refs; simpl.
  intros [<-|[<-|[<-|[<-|[<-|[<-|[]]]]]]]; reflexivity.
Qed.

Lemma str_length_app (s1 s2 : string) :
  String.length (s1 ++ s2) = String.length s1 + String.length s2.
Proof. induction s1 as [|c s1 IH]; simpl; [reflexivity | rewrite IH; reflexivity]. Qed.




Lemma str_nat_aux_length (f n k : nat) :
  n < f -> (Z.of_nat n < 10 ^ Z.of_nat k)%Z -> 1 <= k ->
  String.length (str_nat_aux f n) <= k.
Proof.
  revert n k. induction f as [|f IH]; intros n k Hf Hn Hk; [lia|].
  rewrite str_nat_aux_S. destruct (Nat.ltb n 10) eqn:E; [simpl; lia|].
  apply Nat.ltb_ge in E.
  assert (Hk2 : 2 <= k).
  { destruct (Nat.eq_dec k 1) as [->|]; [|lia]. simpl in Hn. lia. }
  rewrite str_length_app. cbn [String.length].
  assert (Hpow : (10 ^ Z.of_nat k = 10 * 10 ^ Z.of_nat (k - 1))%Z).
  { replace (Z.of_nat k) with (Z.succ (Z.of_nat (k - 1))) by lia.
    apply Z.pow_succ_r. lia. }
  assert (Hq : (Z.of_nat (n / 10) < 10 ^ Z.of_nat (k - 1))%Z).
  { rewrite Nat2Z.inj_div. apply Z.div_lt_upper_bound; lia. }
  assert (n / 10 < f).
  { assert (n / 10 < n) by (apply Nat.div_lt; lia). lia. }
  specialize (IH (n / 10) (k - 1) ltac:(assumption) Hq ltac:(lia)). lia.
Qed.

(** [str(n)] of a number below [10 ^ k] has at most [k] digits. *)
Lemma str_nat_length (n k : nat) :
  (Z.of_nat n < 10 ^ Z.of_nat k)%Z -> 1 <= k -> String.length (str_nat n) <= k.
Proof. intros Hn Hk. apply str_nat_aux_length; [lia | exact Hn | exact Hk]. Qed.


(** A canonical string parses to its components, unless [int()] refuses
    its position. *)
Lemma validate_canonical_gen (ref : string) (p : Z) (alt : string) :
  In ref canonical_refs -> In alt canonical_alts -> (0 < p)%Z ->
  validate_mutation_string (Signatures.code ref p alt) =
  if Nat.ltb int_max_str_digits (String.length (str_nat (Z.to_nat p)))
  then Invalid ("Invalid value in '" ++ Signatures.code ref p alt ++ "'")
  else Valid (mk_mutation_data p ref alt).
Proof.
  intros Href Halt Hp.
  destruct (alt_canonical alt Halt) as (Hm & Hu & Hd).
  unfold Signatures.code at 1. unfold str_Z.
  replace (Z.ltb p 0) with false by (symmetry; apply Z.ltb_ge; lia).
  unfold Signatures.code, str_Z.
  replace (Z.ltb p 0) with false by (symmetry; apply Z.ltb_ge; lia).
  pose proof (str_nat_digits (Z.to_nat p)) as HD.
  pose proof (str_nat_int (Z.to_nat p)) as HI.
  pose proof (str_nat_aux_nonempty (Z.to_nat p) (Z.to_nat p)) as HN.
  fold (str_nat (Z.to_nat p)) in HN.
  remember (str_nat (Z.to_nat p)) as D eqn:HeqD.
  unfold validate_mutation_string.
  rewrite !upper_app, (ref_upper ref Href), (upper_digits D HD), Hu.
  unfold regex_match.
  rewrite (split_ref_canonical ref (D ++ alt) Href).
  2:{ destruct D as [|c D]; [contradiction|]. simpl in HD |- *.
      apply andb_prop in HD as [Hc _]. exact Hc. }
  rewrite (span_digits_app D alt HD Hd).
  replace (String.eqb D "") with false
    by (destruct D; [contradiction | reflexivity]).
  rewrite Hm. unfold py_int.
  destruct (Nat.ltb int_max_str_digits (String.length D)); [reflexivity|].
  rewrite HI, Z2Nat.id by lia.
  replace (Z.leb p 0) with false by (symmetry; apply Z.leb_gt; lia).
  reflexivity.
Qed.

(** A canonical string whose position has at most 4300 digits is
    accepted and parses to its components. *)
Lemma validate_canonical (ref : string) (p : Z) (alt : string) :
  In ref canonical_refs -> In alt canonical_alts -> (0 < p)%Z ->
  (p < 10 ^ Z.of_nat int_max_str_digits)%Z ->
  validate_mutation_string (Signatures.code ref p alt) =
  Valid (mk_mutation_data p ref alt).
Proof.
  intros Href Halt Hp Hb. rewrite validate_canonical_gen by assumption.
  replace (Nat.ltb int_max_str_digits (String.length (str_nat (Z.to_nat p)))) with false;
    [reflexivity|].
  symmetry. apply Nat.ltb_ge. apply str_nat_length.
  - rewrite Z2Nat.id by lia. exact Hb.
  - unfold int_max_str_digits. lia.
Qed.




End MutationFacts.

Module SignaturesApiFacts.
Import Mutation MutationFacts SignaturesApi.




Lemma validate_fold (l : list string) (a : bool) (v e : list string) :
  fold_left validate_step l (a, v, e) =
  (a && forallb accepted l, app v (List.filter accepted l), app e (flat_map error_of l)).
Proof.
  revert a v e. induction l as [|s l IH]; intros a v e; simpl.
  - rewrite andb_true_r, !app_nil_r. reflexivity.
  - unfold accepted, error_of. destruct (validate_mutation_string s) eqn:Hv.
    + rewrite IH. simpl. rewrite <- app_assoc. reflexivity.
    + rewrite IH. simpl. rewrite andb_false_r, <- app_assoc. reflexivity.
Qed.

Lemma accepted_errors (l : list string) :
  forallb accepted l = true <-> flat_map error_of l = [].
Proof.
  induction l as [|s l IH]; simpl; [tauto|].
  unfold accepted, error_of. destruct (validate_mutation_string s); simpl; [exact IH|].
  split; discriminate.
Qed.

Lemma accepted_errors_length (l : list string) :
  length (List.filter accepted l) + length (flat_map error_of l) = length l.
Proof.
  induction l as [|s l IH]; simpl; [reflexivity|].
  unfold accepted at 1, error_of at 1.
  destruct (validate_mutation_string s); simpl; rewrite ?length_app; simpl; lia.
Qed.

Lemma index_char (s : string) (i : nat) :
  i < String.length s ->
  exists c, Py.index s i = String c EmptyString /\ In c (list_ascii_of_string s).
Proof.
  unfold Py.index. revert i. induction s as [|c s IH]; intros i Hi; simpl in Hi; [lia|].
  destruct i as [|i].
  - exists c. split; [destruct s; reflexivity | left; reflexivity].
  - destruct (IH i ltac:(lia)) as (c' & Hc' & Hin).
    exists c'. split; [exact Hc' | right; exact Hin].
Qed.

Lemma length_one (s : string) : String.length s = 1 -> exists c, s = String c EmptyString.
Proof.
  destruct s as [|c [|d s]]; simpl; intros H; [discriminate| exists c; reflexivity | discriminate].
Qed.

Lemma contains_none (x : ascii) (cs s : string) :
  Py.contains x cs = false ->
  (forall c, In c (list_ascii_of_string s) -> Py.contains c cs = true) ->
  Py.contains x s = false.
Proof.
  intros Hx. induction s as [|c s IH]; intros Hs; simpl; [reflexivity|].
  destruct (Ascii.eqb_spec x c) as [<-|_].
  - rewrite (Hs x (or_introl eq_refl)) in Hx. discriminate.
  - apply IH. intros c' Hc'. apply Hs. right. exact Hc'.
Qed.

(** A code of [format_mutation] has canonical components. *)
Lemma format_mutation_canonical (pos : Z) (change m : string) :
  (0 < pos)%Z ->
  (Py.all_eq Signatures.dash change = true \/
   exists ref alt, change = ref ++ String Signatures.gt alt /\
     (forall c, In c (list_ascii_of_string ref) -> Py.contains c ref_chars = true) /\
     (forall c, In c (list_ascii_of_string alt) -> Py.contains c alt_chars = true)) ->
  In m (Signatures.format_mutation pos change) ->
  exists ref' p alt', m = Signatures.code ref' p alt' /\
    In ref' canonical_refs /\ In alt' canonical_alts /\ (0 < p)%Z /\
    (p < pos + Z.of_nat (String.length change))%Z.
Proof.
  intros Hpos [Hdash | (ref & alt & -> & Href & Halt)] Hm;
    unfold Signatures.format_mutation in Hm.
  - rewrite Hdash in Hm. apply in_map_iff in Hm as (i & <- & Hi). apply in_seq in Hi.
    exists "", pos, "-". repeat split; [simpl; tauto | simpl; tauto | exact Hpos | lia].
  - rewrite (PyFacts.all_eq_app_other Signatures.dash Signatures.gt ref alt eq_refl) in Hm.
    rewrite PyFacts.contains_app_sep in Hm.
    assert (Hgr : Py.contains Signatures.gt ref = false)
      by (apply (contains_none _ ref_chars); [reflexivity | exact Href]).
    assert (Hga : Py.contains Signatures.gt alt = false)
      by (apply (contains_none _ alt_chars); [reflexivity | exact Halt]).
    rewrite (PyFacts.split_app_sep _ _ _ Hgr), (PyFacts.split_no_sep _ _ Hga) in Hm.
    destruct (Nat.ltb 1 (String.length ref) && Nat.ltb 1 (String.length alt)
              && Nat.eqb (String.length ref) (String.length alt)) eqn:E1.
    + apply in_flat_map in Hm as (i & Hi & Hm). apply in_seq in Hi.
      destruct (Nat.ltb i (String.length alt)) eqn:E2; [|destruct Hm].
      apply Nat.ltb_lt in E2. destruct Hm as [<-|[]].
      destruct (index_char ref i ltac:(lia)) as (c & -> & Hc).
      destruct (index_char alt i E2) as (a & -> & Ha).
      exists (String c ""), (pos + Z.of_nat i)%Z, (String a "").
      rewrite str_length_app. simpl String.length.
      repeat split; [apply contains_ref_in; auto | apply contains_alt_in; auto | lia | lia].
    + destruct (negb (Nat.eqb (String.length ref) (String.length alt))) eqn:E2;
        [destruct Hm|].
      destruct (negb (String.eqb ref "") && negb (String.eqb alt "")) eqn:E3; [|destruct Hm].
      destruct Hm as [<-|[]].
      apply negb_false_iff, Nat.eqb_eq in E2.
      apply andb_prop in E3 as [E3 E4]. apply negb_true_iff, String.eqb_neq in E3.
      assert (Hl : String.length ref = 1).
      { destruct ref as [|c r]; [contradiction|].
        destruct (Nat.eqb_spec (String.length (String c r)) 1) as [|Hn]; [assumption|].
        exfalso. rewrite <- E2 in E1. simpl in E1, Hn.
        destruct (Nat.ltb_spec 1 (S (String.length r))); [|lia].
        rewrite Nat.eqb_refl in E1. simpl in E1. discriminate. }
      assert (Hla : String.length alt = 1) by lia.
      destruct (length_one ref Hl) as [c ->]. destruct (length_one alt Hla) as [a ->].
      exists (String c ""), pos, (String a "").
      rewrite str_length_app. simpl String.length.
      repeat split; [apply contains_ref_in, Href | apply contains_alt_in, Halt | exact Hpos | lia];
        left; reflexivity.
Qed.

Lemma get_variant_list_app (defs : list variant_definition) (acc : list sig_variant) :
  fold_left (fun vl d => add_variant vl (from_variant_definition d)) defs acc =
  app acc (map from_variant_definition defs).
Proof.
  revert acc. induction defs as [|d defs IH]; intros acc; simpl.
  - rewrite app_nil_r. reflexivity.
  - rewrite IH. unfold add_variant. rewrite <- app_assoc. reflexivity.
Qed.

Lemma find_map {A B} (f : B -> bool) (g : A -> B) (l : list A) :
  find f (map g l) = option_map g (find (fun a => f (g a)) l).
Proof. induction l as [|a l IH]; simpl; [reflexivity|]. destruct (f (g a)); auto. Qed.

Lemma find_app {A} (f : A -> bool) (l1 l2 : list A) :
  find f (app l1 l2) = match find f l1 with Some x => Some x | None => find f l2 end.
Proof. induction l1 as [|a l1 IH]; simpl; [reflexivity|]. destruct (f a); auto. Qed.

End SignaturesApiFacts.

Module AggregatorFacts.
Import Aggregator AggregatorInv.

Lemma list_sum_app (l1 l2 : list nat) :
  list_sum (l1 ++ l2)%list = list_sum l1 + list_sum l2.
Proof. induction l1; simpl; lia. Qed.

Lemma dict_get_add (cs : list (string * nat)) (k n : string) (c : nat) :
  dict_get (dict_add cs k c) n 0 =
  dict_get cs n 0 +
  (if String.eqb n k && existsb (String.eqb n) (map fst cs) then c else 0).
Proof.
  unfold dict_get, dict_add. induction cs as [|[k' v] cs IH]; simpl.
  - rewrite andb_false_r. reflexivity.
  - destruct (String.eqb_spec k' k) as [->|Hk]; simpl.
    + destruct (String.eqb_spec k n) as [->|Hn].
      * rewrite String.eqb_refl. simpl. reflexivity.
      * rewrite IH. destruct (String.eqb_spec n k); [congruence|]. reflexivity.
    + destruct (String.eqb_spec k' n) as [->|Hn].
      * rewrite String.eqb_refl. simpl.
        destruct (String.eqb_spec n k); [congruence|]. simpl. lia.
      * rewrite IH. destruct (String.eqb_spec n k'); [congruence|]. reflexivity.
Qed.

Lemma map_fst_dict_add (cs : list (string * nat)) (k : string) (c : nat) :
  map fst (dict_add cs k c) = map fst cs.
Proof.
  unfold dict_add. induction cs as [|[k' v] cs IH]; simpl; [reflexivity|].
  destruct (String.eqb k' k); simpl; rewrite IH; reflexivity.
Qed.

Lemma dict_get_zeros (syms : list string) (n : string) :
  dict_get (map (fun m => (m, 0)) syms) n 0 = 0.
Proof.
  unfold dict_get. induction syms as [|m syms IH]; simpl; [reflexivity|].
  destruct (String.eqb m n); [reflexivity|exact IH].
Qed.

(** [d.get(k, 0)] on a dictionary built by a comprehension over [syms]. *)
Lemma dict_get_comprehension (syms : list string) (g : string -> nat) (k : string) :
  dict_get (map (fun nt => (nt, g nt)) syms) k 0 =
  if existsb (String.eqb k) syms then g k else 0.
Proof.
  unfold dict_get. induction syms as [|m syms IH]; simpl; [reflexivity|].
  destruct (String.eqb_spec m k) as [->|Hm].
  - rewrite String.eqb_refl. reflexivity.
  - destruct (String.eqb_spec k m); [congruence|]. simpl. exact IH.
Qed.

Lemma tot_snoc (P : list (string * entry)) (nt : string) (e : entry) (d : string) :
  tot (P ++ [(nt, e)])%list d =
  tot P d + (if String.eqb (sampling_date e) d then count e else 0).
Proof.
  unfold tot. rewrite List.filter_app, map_app, list_sum_app. simpl.
  destruct (String.eqb (sampling_date e) d); simpl; lia.
Qed.

Lemma per_snoc (P : list (string * entry)) (nt : string) (e : entry) (n d : string) :
  per (P ++ [(nt, e)])%list n d =
  per P n d +
  (if String.eqb nt n && String.eqb (sampling_date e) d then count e else 0).
Proof.
  unfold per. rewrite List.filter_app, map_app, list_sum_app. simpl.
  destruct (String.eqb nt n && String.eqb (sampling_date e) d); simpl; lia.
Qed.

Lemma strat_inv_nil (syms : list string) : strat_inv syms [] [].
Proof.
  split; [|split].
  - intros d cs cov [].
  - intros d _. split; [reflexivity|]. intros n. reflexivity.
  - intros p [].
Qed.

Lemma existsb_eqb_In (n : string) (l : list string) :
  existsb (String.eqb n) l = true <-> In n l.
Proof.
  rewrite existsb_exists. split.
  - intros (x & Hx & E). apply String.eqb_eq in E. subst. exact Hx.
  - intros H. exists n. split; [exact H|]. apply String.eqb_refl.
Qed.

Lemma strat_inv_ensure (syms : list string) (P : list (string * entry))
    (acc : strat_acc) (date : string) :
  strat_inv syms P acc ->
  strat_inv syms P
    (if existsb (String.eqb date) (map fst acc) then acc
     else app acc [(date, (map (fun n => (n, 0)) syms, 0))]) /\
  In date (map fst
    (if existsb (String.eqb date) (map fst acc) then acc
     else app acc [(date, (map (fun n => (n, 0)) syms, 0))])).
Proof.
  intros (H1 & H2 & H3).
  destruct (existsb (String.eqb date) (map fst acc)) eqn:E.
  - split; [split; [exact H1|split; assumption]|].
    apply existsb_eqb_In. exact E.
  - assert (Hnot : ~ In date (map fst acc)).
    { intros Hin. apply existsb_eqb_In in Hin. congruence. }
    split.
    + split; [|split; [|exact H3]].
      * intros d cs cov Hin. apply in_app_or in Hin as [Hin|[Heq|[]]].
        -- exact (H1 d cs cov Hin).
        -- injection Heq as <- <- <-.
           destruct (H2 date Hnot) as [Ht Hp].
           split; [symmetry; exact Ht|]. split.
           ++ rewrite map_map. simpl. apply map_id.
           ++ intros n. rewrite dict_get_zeros, Hp. reflexivity.
      * intros d Hd. apply H2. intros Hin. apply Hd.
        rewrite map_app. apply in_or_app. left. exact Hin.
    + rewrite map_app. apply in_or_app. right. left. reflexivity.
Qed.

Lemma strat_inv_step (syms : list string) (P : list (string * entry))
    (acc : strat_acc) (nt : string) (e : entry) :
  In nt syms -> strat_inv syms P acc ->
  strat_inv syms (P ++ [(nt, e)])%list (strat_step syms acc nt e).
Proof.
  intros Hnt Hinv. unfold strat_step.
  destruct (strat_inv_ensure syms P acc (sampling_date e) Hinv)
    as [(H1 & H2 & H3) Hdate].
  set (acc' := if existsb _ _ then _ else _) in *.
  clearbody acc'.
  set (upd := fun p : string * (list (string * nat) * nat) =>
                if String.eqb (fst p) (sampling_date e)
                then (fst p, (dict_add (fst (snd p)) nt (count e),
                              snd (snd p) + count e))
                else p).
  assert (Hkeys : map fst (map upd acc') = map fst acc').
  { rewrite map_map. apply map_ext. intros [k v]. unfold upd. simpl.
    destruct (String.eqb k (sampling_date e)); reflexivity. }
  split; [|split].
  - intros d cs cov Hin. apply in_map_iff in Hin as ([k [cs0 cov0]] & Hu & Hin).
    destruct (H1 k cs0 cov0 Hin) as (Hcov & Hsyms & Hget).
    unfold upd in Hu. simpl in Hu.
    destruct (String.eqb_spec k (sampling_date e)) as [Hk|Hk].
    + injection Hu as <- <- <-. subst k.
      rewrite tot_snoc, String.eqb_refl. split; [lia|]. split.
      * rewrite map_fst_dict_add. exact Hsyms.
      * intros n. rewrite dict_get_add, per_snoc, Hget, String.eqb_refl, andb_true_r.
        destruct (String.eqb_spec n nt) as [->|Hn].
        -- rewrite String.eqb_refl, Hsyms. simpl.
           assert (existsb (String.eqb nt) syms = true) as -> by
             (apply existsb_eqb_In; exact Hnt).
           reflexivity.
        -- destruct (String.eqb_spec nt n); [congruence|]. reflexivity.
    + injection Hu as <- <- <-.
      assert (Hne : String.eqb (sampling_date e) k = false)
        by (apply String.eqb_neq; congruence).
      rewrite tot_snoc, Hne. split; [lia|]. split; [exact Hsyms|].
      intros n. rewrite per_snoc, Hne, andb_false_r, Hget. lia.
  - intros d Hd. rewrite Hkeys in Hd.
    destruct (H2 d Hd) as [Ht Hp].
    assert (Hne : String.eqb (sampling_date e) d = false).
    { apply String.eqb_neq. intros Heq. apply Hd. rewrite <- Heq. exact Hdate. }
    rewrite tot_snoc, Hne. split; [lia|].
    intros n. rewrite per_snoc, Hne, andb_false_r, Hp. reflexivity.
  - intros p Hp. apply in_app_or in Hp as [Hp|[<-|[]]].
    + exact (H3 p Hp).
    + exact Hnt.
Qed.

Lemma strat_inv_fold (syms : list string) (nt : string) (l : list entry) :
  In nt syms ->
  forall P acc, strat_inv syms P acc ->
  strat_inv syms (P ++ map (pair nt) l)%list
    (fold_left (fun a e => strat_step syms a nt e) l acc).
Proof.
  intros Hnt. induction l as [|e l IH]; intros P acc Hinv; simpl.
  - rewrite app_nil_r. exact Hinv.
  - replace (P ++ (nt, e) :: map (pair nt) l)%list
      with ((P ++ [(nt, e)]) ++ map (pair nt) l)%list
      by (rewrite <- app_assoc; reflexivity).
    apply IH. apply strat_inv_step; assumption.
Qed.

Lemma stratify_ok (syms : list string) (items : list (string * option (list entry))) :
  forall P acc acc',
  stratify syms acc items = inr acc' ->
  strat_inv syms P acc ->
  (forall p, In p items -> In (fst p) syms) ->
  strat_inv syms (P ++ items_entries items)%list acc' /\
  (forall p, In p items -> snd p <> None).
Proof.
  induction items as [|[nt [l|]] items IH]; intros P acc acc' Hs Hinv Hsyms;
    simpl in Hs.
  - injection Hs as <-. simpl. rewrite app_nil_r. split; [exact Hinv|].
    intros p [].
  - assert (Hnt : In nt syms) by exact (Hsyms _ (or_introl eq_refl)).
    destruct (IH (P ++ map (pair nt) l)%list _ acc' Hs
                 (strat_inv_fold syms nt l Hnt P acc Hinv))
      as [Hi Hn].
    { intros p Hp. apply Hsyms. right. exact Hp. }
    split.
    + simpl. rewrite app_assoc. exact Hi.
    + intros p [<-|Hp]; [discriminate|]. exact (Hn p Hp).
  - discriminate.
Qed.

Lemma stratify_none (syms : list string) (items : list (string * option (list entry))) :
  forall acc, (exists p, In p items /\ snd p = None) ->
  exists msg, stratify syms acc items = inl (TypeError msg).
Proof.
  induction items as [|[nt [l|]] items IH]; intros acc (p & Hin & Hp).
  - destruct Hin.
  - destruct Hin as [<-|Hin]; [discriminate|].
    simpl. apply IH. exists p. split; assumption.
  - simpl. eexists. reflexivity.
Qed.

Lemma tot_app (P1 P2 : list (string * entry)) (d : string) :
  tot (P1 ++ P2)%list d = tot P1 d + tot P2 d.
Proof. unfold tot. rewrite List.filter_app, map_app. apply list_sum_app. Qed.

Lemma per_app (P1 P2 : list (string * entry)) (n d : string) :
  per (P1 ++ P2)%list n d = per P1 n d + per P2 n d.
Proof. unfold per. rewrite List.filter_app, map_app. apply list_sum_app. Qed.

Lemma tot_pairs (nt : string) (l : list entry) (d : string) :
  tot (map (pair nt) l) d = date_count l d.
Proof.
  unfold tot, date_count. induction l as [|e l IH]; simpl; [reflexivity|].
  destruct (String.eqb (sampling_date e) d); simpl; rewrite IH; reflexivity.
Qed.

Lemma per_pairs (nt : string) (l : list entry) (n d : string) :
  per (map (pair nt) l) n d = if String.eqb nt n then date_count l d else 0.
Proof.
  unfold per, date_count. destruct (String.eqb nt n) eqn:E.
  - induction l as [|e l IH]; simpl; [reflexivity|]. rewrite E. simpl.
    destruct (String.eqb (sampling_date e) d); simpl; rewrite IH; reflexivity.
  - induction l as [|e l IH]; simpl; [reflexivity|]. rewrite E. exact IH.
Qed.

Lemma tot_entries (syms : list string) (f : string -> option (list entry)) (d : string) :
  tot (items_entries (combine syms (map f syms))) d =
  list_sum (map (fun nt => date_count (opt_data (f nt)) d) syms).
Proof.
  induction syms as [|nt syms IH]; [reflexivity|].
  unfold items_entries in *. simpl.
  rewrite tot_app, tot_pairs, IH. reflexivity.
Qed.

Lemma per_entries (syms : list string) (f : string -> option (list entry)) (n d : string) :
  List.NoDup syms ->
  per (items_entries (combine syms (map f syms))) n d =
  if existsb (String.eqb n) syms then date_count (opt_data (f n)) d else 0.
Proof.
  induction syms as [|nt syms IH]; intros Hnd; [reflexivity|].
  apply NoDup_cons_iff in Hnd as [Hnt Hnd].
  unfold items_entries in *. cbn [combine map flat_map fst snd].
  rewrite per_app, per_pairs, (IH Hnd).
  destruct (String.eqb_spec nt n) as [->|Hn].
  - cbn [existsb]. rewrite String.eqb_refl. simpl.
    assert (existsb (String.eqb n) syms = false) as ->.
    { destruct (existsb (String.eqb n) syms) eqn:E; [|reflexivity].
      apply existsb_eqb_In in E. contradiction. }
    lia.
  - cbn [existsb]. destruct (String.eqb_spec n nt); [congruence|]. simpl. lia.
Qed.

Lemma map_combine_map {A B C} (g : A * B -> C) (f : A -> B) (l : list A) :
  map g (combine l (map f l)) = map (fun x => g (x, f x)) l.
Proof. induction l as [|x l IH]; simpl; [reflexivity|]. rewrite IH. reflexivity. Qed.

Lemma date_count_le (syms : list string) (g : string -> nat) (n : string) :
  In n syms -> g n <= list_sum (map g syms).
Proof.
  induction syms as [|m syms IH]; intros H; [destruct H|].
  simpl. destruct H as [->|H]; [lia|]. specialize (IH H). lia.
Qed.

(** What one iteration of the mutation loop returns when it succeeds. *)
Lemma process_mutation_spec (svc : service) (qtype : string) (syms : list string)
    (m : string) (qs : list string) (r : result) :
  List.NoDup syms ->
  process_mutation svc qtype syms m = (qs, inr r) ->
  exists target,
    py_last m = Some target /\
    qs = map (fun nt => py_init m ++ nt) syms /\
    res_mutation r = m /\
    res_coverage r =
      list_sum (map (fun nt => total_count (symbol_data svc qtype m nt)) syms) /\
    res_frequency r =
      (if Nat.ltb 0 (res_coverage r)
       then div_q (if existsb (String.eqb target) syms
                   then total_count (symbol_data svc qtype m target) else 0)
                  (res_coverage r)
       else 0%Q) /\
    forall st, In st (res_stratified r) ->
      st_coverage st =
        list_sum (map (fun nt => date_count (symbol_data svc qtype m nt) (st_date st)) syms) /\
      st_count st =
        (if Nat.ltb 0 (st_coverage st)
         then Val (if existsb (String.eqb target) syms
                   then date_count (symbol_data svc qtype m target) (st_date st) else 0)
         else NA) /\
      st_frequency st =
        (if Nat.ltb 0 (st_coverage st)
         then Val (div_q (if existsb (String.eqb target) syms
                          then date_count (symbol_data svc qtype m target) (st_date st)
                          else 0) (st_coverage st))
         else NA).
Proof.
  intros Hnd H. unfold process_mutation in H.
  destruct (py_last m) as [target|]; [|discriminate].
  set (f := fun nt => fetch_sample_aggregated svc (py_init m ++ nt) qtype) in *.
  cbv zeta in H. rewrite map_map in H. fold f in H.
  destruct (stratify syms [] (combine syms (map f syms))) as [ex|acc] eqn:Hs;
    injection H as <- Hr; [discriminate|].
  subst r.
  assert (Hcov : forall p : string * option (list entry),
            (fst p, match snd p with Some l => list_sum (map count l) | None => 0 end)
            = (fst p, total_count (opt_data (snd p)))).
  { intros [nt [l|]]; reflexivity. }
  rewrite (map_ext _ _ Hcov), map_combine_map. simpl.
  rewrite dict_get_comprehension, map_map. simpl.
  exists target. split; [reflexivity|]. split; [reflexivity|].
  split; [reflexivity|]. split; [reflexivity|]. split; [reflexivity|].
  intros st Hst. apply in_map_iff in Hst as ([d [cs cov]] & <- & Hin).
  destruct (stratify_ok syms (combine syms (map f syms)) [] [] acc Hs
              (strat_inv_nil syms)) as [[H1 _] _].
  { intros [x y] Hp. apply in_combine_l in Hp. exact Hp. }
  destruct (H1 d cs cov Hin) as (Hc & _ & Hget).
  simpl in Hc, Hget. rewrite tot_entries in Hc.
  specialize (Hget target). rewrite (per_entries syms f target d Hnd) in Hget.
  simpl. rewrite Hget. split; [exact Hc|]. split; reflexivity.
Qed.

Lemma process_mutation_queries (svc : service) (qtype : string) (syms : list string)
    (m : string) (qs : list string) (r : result) :
  process_mutation svc qtype syms m = (qs, inr r) ->
  qs = map (fun nt => py_init m ++ nt) syms.
Proof.
  intros H. unfold process_mutation in H.
  destruct (py_last m); [|discriminate]. cbv zeta in H.
  destruct (stratify _ _ _); injection H as <- _; reflexivity.
Qed.

Lemma process_mutation_none (svc : service) (qtype : string) (syms : list string)
    (m target nt : string) :
  py_last m = Some target -> In nt syms ->
  fetch_sample_aggregated svc (py_init m ++ nt) qtype = None ->
  exists msg, snd (process_mutation svc qtype syms m) = inl (TypeError msg).
Proof.
  intros Hl Hin Hnone. unfold process_mutation. rewrite Hl. cbv zeta.
  destruct (stratify_none syms
              (combine syms (map (fun q => fetch_sample_aggregated svc q qtype)
                                 (map (fun nt => py_init m ++ nt) syms))) [])
    as [msg Hs].
  { exists (nt, fetch_sample_aggregated svc (py_init m ++ nt) qtype).
    split; [|exact Hnone]. rewrite map_map.
    induction syms as [|x syms IH]; [destruct Hin|].
    destruct Hin as [<-|Hin]; [left; reflexivity|right; exact (IH Hin)]. }
  exists msg. simpl. rewrite Hs. reflexivity.
Qed.

Lemma mutation_loop_ok (svc : service) (mt qtype : string) (syms : list string) :
  branch mt = Some (syms, qtype) ->
  forall ms qs rs, mutation_loop svc mt ms = (qs, inr rs) ->
  qs = flat_map (fun m => map (fun nt => py_init m ++ nt) syms) ms /\
  forall r, In r rs -> exists m qs', In m ms /\ process_mutation svc qtype syms m = (qs', inr r).
Proof.
  intros Hb. induction ms as [|m ms IH]; intros qs rs H; simpl in H.
  - injection H as <- <-. split; [reflexivity|]. intros r [].
  - rewrite Hb in H.
    destruct (process_mutation svc qtype syms m) as [q0 [ex|res]] eqn:Hp;
      [discriminate|].
    destruct (mutation_loop svc mt ms) as [q1 [ex|rs1]] eqn:Hl; [discriminate|].
    inversion H; subst qs rs; clear H.
    destruct (IH q1 rs1 eq_refl) as [Hq Hr].
    split.
    + simpl. rewrite (process_mutation_queries _ _ _ _ _ _ Hp), Hq. reflexivity.
    + intros r [<-|Hin].
      * exists m, q0. split; [left; reflexivity|exact Hp].
      * destruct (Hr r Hin) as (m' & q' & Hm & Hp').
        exists m', q'. split; [right; exact Hm|exact Hp'].
Qed.

Lemma fetch_nucleotide_ok (svc : service) (ms qs : list string) (rs : list result) :
  fetch_mutation_counts_and_coverage svc ms "nucleotide" = (qs, inr rs) ->
  qs = flat_map (fun m => map (fun nt => py_init m ++ nt) nucleotides) ms /\
  forall r, In r rs ->
    exists m qs', In m ms /\ process_mutation svc "nucleotide" nucleotides m = (qs', inr r).
Proof. apply mutation_loop_ok. reflexivity. Qed.

Lemma nucleotides_NoDup : List.NoDup nucleotides.
Proof.
  unfold nucleotides.
  repeat (apply List.NoDup_cons; [simpl; intros H; repeat destruct H as [H|H]; solve [discriminate | contradiction]|]).
  apply List.NoDup_nil.
Qed.

(** The per-mutation formulas, for the nucleotide call. *)
Lemma fetch_nucleotide_result (svc : service) (ms qs : list string) (rs : list result) :
  fetch_mutation_counts_and_coverage svc ms "nucleotide" = (qs, inr rs) ->
  forall r, In r rs ->
  exists target,
    py_last (res_mutation r) = Some target /\
    res_coverage r =
      list_sum (map (fun nt => total_count (symbol_data svc "nucleotide" (res_mutation r) nt))
                    nucleotides) /\
    res_frequency r =
      (if Nat.ltb 0 (res_coverage r)
       then div_q (target_total_count svc "nucleotide" nucleotides (res_mutation r) target)
                  (res_coverage r)
       else 0%Q) /\
    target_total_count svc "nucleotide" nucleotides (res_mutation r) target <= res_coverage r /\
    forall st, In st (res_stratified r) ->
      st_coverage st =
        list_sum (map (fun nt => date_count (symbol_data svc "nucleotide" (res_mutation r) nt)
                                   (st_date st)) nucleotides) /\
      target_date_count svc "nucleotide" nucleotides (res_mutation r) target (st_date st)
        <= st_coverage st /\
      st_count st =
        (if Nat.ltb 0 (st_coverage st)
         then Val (target_date_count svc "nucleotide" nucleotides (res_mutation r) target
                     (st_date st))
         else NA) /\
      st_frequency st =
        (if Nat.ltb 0 (st_coverage st)
         then Val (div_q (target_date_count svc "nucleotide" nucleotides (res_mutation r) target
                            (st_date st)) (st_coverage st))
         else NA).
Proof.
  intros H r Hr. destruct (fetch_nucleotide_ok _ _ _ _ H) as [_ Hrs].
  destruct (Hrs r Hr) as (m & q & _ & Hp).
  destruct (process_mutation_spec _ _ _ _ _ _ nucleotides_NoDup Hp)
    as (t & Hl & _ & Hm & Hc & Hf & Hs).
  rewrite Hm. exists t. unfold target_total_count, target_date_count.
  split; [exact Hl|]. split; [exact Hc|]. split; [exact Hf|]. split.
  - rewrite Hc. destruct (existsb (String.eqb t) nucleotides) eqn:E; [|lia].
    apply (date_count_le nucleotides (fun nt => total_count (symbol_data svc "nucleotide" m nt))).
    apply existsb_eqb_In. exact E.
  - intros st Hst. destruct (Hs st Hst) as (Hsc & Hsn & Hsf).
    split; [exact Hsc|]. split; [|split; assumption].
    rewrite Hsc. destruct (existsb (String.eqb t) nucleotides) eqn:E; [|lia].
    apply (date_count_le nucleotides
             (fun nt => date_count (symbol_data svc "nucleotide" m nt) (st_date st))).
    apply existsb_eqb_In. exact E.
Qed.

Lemma div_q_unit (c n : nat) : (0 < n)%nat -> (c <= n)%nat -> (0 <= div_q c n <= 1)%Q.
Proof.
  intros Hn Hc. unfold div_q. split.
  - apply Qle_shift_div_l; unfold Qlt, Qle; simpl; lia.
  - apply Qle_shift_div_r; unfold Qlt, Qle; simpl; lia.
Qed.

Lemma div_q_zero (n : nat) : div_q 0 n == 0.
Proof. unfold div_q. simpl. unfold Qdiv. apply Qmult_0_l. Qed.

Lemma mutation_loop_error_app (svc : service) (mt qtype : string) (syms : list string) :
  branch mt = Some (syms, qtype) ->
  forall ms0 l, (exists e, snd (mutation_loop svc mt l) = inl e) ->
  exists e, snd (mutation_loop svc mt (ms0 ++ l)%list) = inl e.
Proof.
  intros Hb ms0 l Hl. induction ms0 as [|m ms0 IH]; [exact Hl|].
  simpl. rewrite Hb.
  destruct (process_mutation svc qtype syms m) as [q [ex|res]]; [exists ex; reflexivity|].
  destruct (mutation_loop svc mt (ms0 ++ l)%list) as [q' [ex|rs]] eqn:E.
  - exists ex. reflexivity.
  - destruct IH as [e He]. discriminate He.
Qed.

Lemma flat_map_length4 (f : string -> list string) (ms : list string) :
  (forall m, length (f m) = 4) -> length (flat_map f ms) = 4 * length ms.
Proof.
  intros Hf. induction ms as [|m ms IH]; [reflexivity|].
  simpl. rewrite length_app, Hf, IH. lia.
Qed.

End AggregatorFacts.

Module AggregatorMoreFacts.
Import Aggregator AggregatorInv AggregatorFacts AggregatorMore.

Lemma strat_step_fst (syms : list string) (acc : strat_acc) (nt : string) (e : entry) :
  map fst (strat_step syms acc nt e) = add_new (map fst acc) (sampling_date e).
Proof.
  unfold strat_step. cbv zeta. rewrite map_map.
  rewrite (map_ext _ fst)
    by (intros p; destruct (String.eqb (fst p) (sampling_date e)); reflexivity).
  unfold add_new. destruct (existsb _ (map fst acc)); [reflexivity|].
  rewrite map_app. reflexivity.
Qed.

Lemma fold_strat_fst (syms : list string) (nt : string) (l : list entry) (acc : strat_acc) :
  map fst (fold_left (fun a e => strat_step syms a nt e) l acc) =
  fold_left add_new (map sampling_date l) (map fst acc).
Proof.
  revert acc. induction l as [|e l IH]; intros acc; simpl; [reflexivity|].
  rewrite IH, strat_step_fst. reflexivity.
Qed.

(** The keys of [stratified_results]: the dates of the visited entries, in
    order of first appearance. *)
Lemma stratify_fst (syms : list string) (items : list (string * option (list entry)))
    (acc acc' : strat_acc) :
  stratify syms acc items = inr acc' ->
  map fst acc' =
  fold_left add_new (map (fun p => sampling_date (snd p)) (items_entries items)) (map fst acc).
Proof.
  revert acc. induction items as [|[nt [l|]] items IH]; intros acc H; simpl in H.
  - injection H as <-. reflexivity.
  - apply IH in H. unfold items_entries in *. cbn [flat_map fst snd opt_data].
    rewrite map_app, fold_left_app, map_map, H, fold_strat_fst. reflexivity.
  - discriminate.
Qed.

Lemma add_new_nodup (ds : list string) (d : string) :
  List.NoDup ds -> List.NoDup (add_new ds d).
Proof.
  intros H. unfold add_new. destruct (existsb (String.eqb d) ds) eqn:E; [exact H|].
  apply List.NoDup_app; [exact H | repeat constructor; intros [] |].
  intros a Ha [->|[]]. apply (proj2 (existsb_eqb_In a ds)) in Ha. congruence.
Qed.

Lemma add_new_in (ds : list string) (d x : string) :
  In x (add_new ds d) <-> In x ds \/ x = d.
Proof.
  unfold add_new. destruct (existsb (String.eqb d) ds) eqn:E.
  - apply existsb_eqb_In in E. split; [tauto|]. intros [H| ->]; assumption.
  - rewrite in_app_iff. simpl. split; intros [H|H];
      [left; exact H | right; destruct H as [->|[]]; reflexivity
      | left; exact H | right; left; symmetry; exact H].
Qed.

Lemma fold_add_new_nodup (ds acc : list string) :
  List.NoDup acc -> List.NoDup (fold_left add_new ds acc).
Proof.
  revert acc. induction ds as [|d ds IH]; intros acc H; simpl; [exact H|].
  apply IH, add_new_nodup, H.
Qed.

Lemma fold_add_new_in (ds acc : list string) (x : string) :
  In x (fold_left add_new ds acc) <-> In x acc \/ In x ds.
Proof.
  revert acc. induction ds as [|d ds IH]; intros acc; simpl; [tauto|].
  rewrite IH, add_new_in. split; intros H; intuition congruence.
Qed.

Lemma items_entries_dates (syms : list string) (f : string -> option (list entry)) :
  map (fun p => sampling_date (snd p)) (items_entries (combine syms (map f syms))) =
  flat_map (fun nt => map sampling_date (opt_data (f nt))) syms.
Proof.
  induction syms as [|nt syms IH]; [reflexivity|].
  unfold items_entries in *. cbn [combine map flat_map fst snd].
  rewrite map_app, map_map, IH. reflexivity.
Qed.

(** One successful iteration: its result names the mutation, and its
    stratified dates are the dates the queries returned, each once, in
    order of first appearance. *)
Lemma process_mutation_dates (svc : service) (qtype : string) (syms : list string)
    (m : string) (qs : list string) (r : result) :
  process_mutation svc qtype syms m = (qs, inr r) ->
  res_mutation r = m /\
  map st_date (res_stratified r) =
    first_appearance
      (flat_map (fun nt => map sampling_date
                   (opt_data (fetch_sample_aggregated svc (py_init m ++ nt) qtype))) syms).
Proof.
  intros H. unfold process_mutation in H.
  destruct (py_last m) as [target|]; [|discriminate].
  set (f := fun nt => fetch_sample_aggregated svc (py_init m ++ nt) qtype) in *.
  cbv zeta in H. rewrite map_map in H. fold f in H.
  destruct (stratify syms [] (combine syms (map f syms))) as [ex|acc] eqn:Hs;
    injection H as <- Hr; [discriminate|].
  subst r. simpl. split; [reflexivity|]. rewrite map_map.
  rewrite (map_ext _ fst) by (intros [d [cs cov]]; reflexivity).
  rewrite (stratify_fst _ _ _ _ Hs). unfold first_appearance.
  rewrite items_entries_dates. reflexivity.
Qed.

Lemma mutation_loop_forall2 (svc : service) (mt qtype : string) (syms : list string) :
  branch mt = Some (syms, qtype) ->
  forall ms qs rs, mutation_loop svc mt ms = (qs, inr rs) ->
  Forall2 (fun m r => exists qs', process_mutation svc qtype syms m = (qs', inr r)) ms rs.
Proof.
  intros Hb. induction ms as [|m ms IH]; intros qs rs H; simpl in H.
  - injection H as <- <-. constructor.
  - rewrite Hb in H.
    destruct (process_mutation svc qtype syms m) as [q0 [ex|res]] eqn:Hp;
      [discriminate|].
    destruct (mutation_loop svc mt ms) as [q1 [ex|rs1]] eqn:Hl; [discriminate|].
    inversion H; subst qs rs; clear H.
    constructor; [exists q0; exact Hp | exact (IH q1 rs1 eq_refl)].
Qed.

Lemma forall2_in_r {A B} (P : A -> B -> Prop) (l1 : list A) (l2 : list B) (b : B) :
  Forall2 P l1 l2 -> In b l2 -> exists a, In a l1 /\ P a b.
Proof.
  induction 1 as [|a b' l1 l2 Hab _ IH]; intros Hin; [destruct Hin|].
  destruct Hin as [<-|Hin]; [exists a; split; [left; reflexivity | exact Hab]|].
  destruct (IH Hin) as (a' & Ha' & Hp). exists a'. split; [right; exact Ha' | exact Hp].
Qed.

Lemma nodup_pair (m : string) (l : list string) :
  List.NoDup l -> List.NoDup (map (pair m) l).
Proof.
  induction 1 as [|x l Hx _ IH]; simpl; constructor; [|exact IH].
  intros Hin. apply in_map_iff in Hin as (y & Hy & Hin). injection Hy as ->. contradiction.
Qed.

End AggregatorMoreFacts.

Module RegistryFacts.
Import Registry.



End RegistryFacts.

Module RegistryStateFacts.
Import Registry SignaturesApi RegistryState.

Lemma source_eqb_eq (a b : variant_source) : source_eqb a b = true <-> a = b.
Proof. destruct a, b; simpl; split; congruence. Qed.

Lemma is_registered_lookup (r : registry) (n : string) :
  is_variant_registered r n = true <-> exists d, r !! n = Some d.
Proof.
  unfold is_variant_registered. destruct (r !! n).
  - split; eauto.
  - split; [discriminate | intros [d H]; discriminate].
Qed.

Lemma unregister_lookup (r : registry) (k n : string) :
  unregister_variant r k !! n = if String.eqb n k then None else r !! n.
Proof.
  unfold unregister_variant, is_variant_registered.
  destruct (String.eqb_spec n k) as [->|Hne].
  - destruct (r !! k) eqn:E; [apply lookup_delete_eq | exact E].
  - destruct (r !! k); [|reflexivity]. apply lookup_delete_ne. congruence.
Qed.

Lemma unregister_fold (sel : list string) (l : list (string * registered)) (r : registry)
    (n : string) :
  fold_left (unregister_deselected_step sel) l r !! n =
  if existsb (fun kv => String.eqb n (fst kv) &&
                        (source_eqb (r_source (snd kv)) CURATED
                         && negb (existsb (String.eqb (fst kv)) sel))) l
  then None else r !! n.
Proof.
  revert r. induction l as [|[k d] l IH]; intros r; simpl; [reflexivity|].
  rewrite IH. destruct (existsb _ l); [rewrite orb_true_r; reflexivity|].
  rewrite orb_false_r.
  destruct (source_eqb (r_source d) CURATED && negb (existsb (String.eqb k) sel)).
  - rewrite unregister_lookup, andb_true_r. reflexivity.
  - rewrite andb_false_r. reflexivity.
Qed.

(** The first loop removes exactly the deselected curated entries. *)
Lemma unregister_deselected_lookup (reg : registry) (sel : list string) (n : string) :
  unregister_deselected reg sel !! n =
  match reg !! n with
  | Some d => if source_eqb (r_source d) CURATED && negb (existsb (String.eqb n) sel)
              then None else Some d
  | None => None
  end.
Proof.
  unfold unregister_deselected. rewrite unregister_fold.
  destruct (reg !! n) as [d|] eqn:Hn.
  - destruct (source_eqb (r_source d) CURATED && negb (existsb (String.eqb n) sel)) eqn:Hp.
    + replace (existsb _ (map_to_list reg)) with true; [reflexivity|]. symmetry.
      apply existsb_exists. exists (n, d). split.
      * apply list_elem_of_In, elem_of_map_to_list. exact Hn.
      * simpl. rewrite String.eqb_refl. exact Hp.
    + destruct (existsb _ (map_to_list reg)) eqn:He; [|reflexivity].
      apply existsb_exists in He as ([k d'] & Hin & He). simpl in He.
      apply andb_prop in He as [Hk He]. apply String.eqb_eq in Hk. subst k.
      apply list_elem_of_In, elem_of_map_to_list in Hin. 
      pose proof (eq_trans (eq_sym Hn) Hin) as Hdd. injection Hdd as <-.
      rewrite He in Hp. discriminate.
  - destruct (existsb _ (map_to_list reg)); reflexivity.
Qed.

Lemma curated_lookup_name (all : list sig_variant) (name : string) (v : sig_variant) :
  curated_variant_map_lookup all name = Some v -> v_name v = name.
Proof.
  unfold curated_variant_map_lookup. intros H. apply find_some in H as [_ H].
  apply String.eqb_eq. exact H.
Qed.

Lemma register_step_keep (all : list sig_variant) (r : registry) (name n : string)
    (d : registered) :
  r !! n = Some d -> register_selected_step all r name !! n = Some d.
Proof.
  intros Hn. unfold register_selected_step.
  destruct (curated_variant_map_lookup all name) as [v|] eqn:Hl; [|exact Hn].
  destruct (is_variant_registered r name) eqn:Hr; [exact Hn|].
  simpl. unfold is_variant_registered in Hr. unfold register_variant, registry in *.
  rewrite (curated_lookup_name _ _ _ Hl).
  rewrite lookup_insert_ne; [exact Hn|]. intros ->. rewrite Hn in Hr. discriminate.
Qed.

Lemma register_fold_keep (all : list sig_variant) (l : list string) (r : registry)
    (n : string) (d : registered) :
  r !! n = Some d -> fold_left (register_selected_step all) l r !! n = Some d.
Proof.
  revert r. induction l as [|name l IH]; intros r Hn; simpl; [exact Hn|].
  apply IH, register_step_keep, Hn.
Qed.

Lemma register_fold_registers (all : list sig_variant) (l : list string) (r : registry)
    (n : string) (v : sig_variant) :
  In n l -> curated_variant_map_lookup all n = Some v ->
  is_variant_registered (fold_left (register_selected_step all) l r) n = true.
Proof.
  revert r. induction l as [|name l IH]; intros r Hin Hl; [destruct Hin|].
  simpl. destruct Hin as [->|Hin]; [|apply IH; assumption].
  assert (H : is_variant_registered (register_selected_step all r n) n = true).
  { unfold register_selected_step. rewrite Hl.
    destruct (is_variant_registered r n) eqn:Hr; [exact Hr|].
    simpl. unfold register_variant, is_variant_registered, registry in *.
    rewrite (curated_lookup_name _ _ _ Hl), lookup_insert_eq. reflexivity. }
  apply is_registered_lookup in H as [d Hd]. apply is_registered_lookup.
  exists d. apply register_fold_keep, Hd.
Qed.

Lemma register_fold_new (all : list sig_variant) (l : list string) (r : registry)
    (n : string) (d : registered) :
  fold_left (register_selected_step all) l r !! n = Some d ->
  r !! n = Some d \/
  (In n l /\ exists v, curated_variant_map_lookup all n = Some v /\
                       d = mk_registered n (v_signature_mutations v) CURATED).
Proof.
  revert r. induction l as [|name l IH]; intros r H; simpl in H; [left; exact H|].
  destruct (IH _ H) as [H1|[Hin Hv]]; [|right; split; [right; exact Hin | exact Hv]].
  unfold register_selected_step in H1.
  destruct (curated_variant_map_lookup all name) as [v|] eqn:Hl; [|left; exact H1].
  destruct (is_variant_registered r name); [left; exact H1|].
  simpl in H1. unfold register_variant, registry in *. rewrite (curated_lookup_name _ _ _ Hl) in H1.
  destruct (String.eqb_spec n name) as [->|Hne].
  - rewrite lookup_insert_eq in H1. injection H1 as <-. right.
    split; [left; reflexivity|]. exists v. split; [exact Hl | reflexivity].
  - rewrite lookup_insert_ne in H1 by congruence. left. exact H1.
Qed.



End RegistryStateFacts.

Module ComposerFacts.
Import Composer ComposerCompare.

Section Sorting.
Variable A : Type.
Variable lt : A -> A -> bool.
Hypothesis lt_asym : forall a b, lt a b = true -> lt b a = false.

Lemma insert_by_perm (x : A) (l : list A) : Permutation (insert_by lt x l) (x :: l).
Proof.
  induction l as [|y l IH]; simpl; [reflexivity|].
  destruct (lt x y); [reflexivity|].
  rewrite IH. apply perm_swap.
Qed.

Lemma sort_by_fold_perm (l acc : list A) :
  Permutation (fold_left (fun acc x => insert_by lt x acc) l acc) (app acc l).
Proof.
  revert acc. induction l as [|x l IH]; intros acc; simpl.
  - rewrite app_nil_r. reflexivity.
  - rewrite IH, insert_by_perm. apply Permutation_middle.
Qed.

Lemma sort_by_perm (l : list A) : Permutation (sort_by lt l) l.
Proof. unfold sort_by. rewrite sort_by_fold_perm. reflexivity. Qed.

Lemma insert_by_hd (x y : A) (l : list A) :
  lt x y = false -> HdRel (fun a b => lt b a = false) y l ->
  HdRel (fun a b => lt b a = false) y (insert_by lt x l).
Proof.
  intros Hxy Hl. destruct l as [|z l]; simpl.
  - constructor. exact Hxy.
  - destruct (lt x z); constructor; [exact Hxy|]. apply HdRel_inv in Hl. exact Hl.
Qed.

Lemma insert_by_sorted (x : A) (l : list A) :
  Sorted (fun a b => lt b a = false) l ->
  Sorted (fun a b => lt b a = false) (insert_by lt x l).
Proof.
  induction l as [|y l IH]; intros Hs; simpl.
  - repeat constructor.
  - destruct (lt x y) eqn:E.
    + constructor; [exact Hs|]. constructor. apply lt_asym, E.
    + apply Sorted_inv in Hs as [Hs Hhd]. constructor; [apply IH, Hs|].
      apply insert_by_hd; assumption.
Qed.

Lemma sort_by_sorted (l : list A) : Sorted (fun a b => lt b a = false) (sort_by lt l).
Proof.
  unfold sort_by. assert (H : Sorted (fun a b => lt b a = false) (@nil A)) by constructor.
  revert H. generalize (@nil A). induction l as [|x l IH]; intros acc H; simpl; [exact H|].
  apply IH, insert_by_sorted, H.
Qed.

End Sorting.

Lemma sorted_impl {A} (R1 R2 : A -> A -> Prop) (l : list A) :
  (forall a b, R1 a b -> R2 a b) -> Sorted R1 l -> Sorted R2 l.
Proof.
  intros Himp. induction 1 as [|a l Hs IH Hhd]; constructor; [exact IH|].
  destruct Hhd; constructor. apply Himp. assumption.
Qed.

Lemma str_ltb_asym (a b : string) : str_ltb a b = true -> str_ltb b a = false.
Proof.
  revert b. induction a as [|x a IH]; intros [|y b]; simpl; try congruence.
  destruct (Nat.ltb_spec (nat_of_ascii x) (nat_of_ascii y)) as [Hlt|Hge].
  - intros _. destruct (Nat.ltb_spec (nat_of_ascii y) (nat_of_ascii x)); [lia|].
    destruct (Ascii.eqb_spec y x) as [->|_]; [lia | reflexivity].
  - destruct (Ascii.eqb_spec x y) as [->|_]; [|discriminate].
    intros H. rewrite Nat.ltb_irrefl, Ascii.eqb_refl. apply IH, H.
Qed.

Lemma all_mutations_perm (vs : list variant) :
  Permutation (all_mutations vs) (nodup string_dec (flat_map signature_mutations vs)).
Proof. apply sort_by_perm. Qed.

Lemma all_mutations_in (vs : list variant) (m : string) :
  In m (all_mutations vs) <-> In m (flat_map signature_mutations vs).
Proof.
  split; intros H.
  - apply (Permutation_in _ (all_mutations_perm vs)), nodup_In in H. exact H.
  - apply (Permutation_in _ (Permutation_sym (all_mutations_perm vs))), nodup_In. exact H.
Qed.

Lemma find_eqb_in (m : string) (l : list string) :
  In m l -> find (fun x => String.eqb x m) l = Some m.
Proof.
  intros Hin. destruct (find (fun x => String.eqb x m) l) as [x|] eqn:E.
  - apply find_some in E as [_ E]. apply String.eqb_eq in E. subst x. reflexivity.
  - pose proof (find_none _ _ E m Hin) as H. simpl in H. rewrite String.eqb_refl in H.
    discriminate.
Qed.

Lemma find_eqb_notin (m : string) (l : list string) :
  ~ In m l -> find (fun x => String.eqb x m) l = None.
Proof.
  intros Hn. destruct (find (fun x => String.eqb x m) l) as [x|] eqn:E; [|reflexivity].
  apply find_some in E as [Hx E]. apply String.eqb_eq in E. subst x. contradiction.
Qed.

Lemma index_of_name (vs : list variant) (v : variant) :
  List.NoDup (map name vs) -> In v vs ->
  exists i, index_of (name v) (map name vs) = Some i /\ nth_error vs i = Some v.
Proof.
  induction vs as [|w vs IH]; intros Hnd Hin; [destruct Hin|].
  simpl in Hnd. apply List.NoDup_cons_iff in Hnd as [Hw Hnd]. simpl.
  destruct (String.eqb_spec (name v) (name w)) as [He|Hne].
  - exists 0. split; [reflexivity|]. destruct Hin as [->|Hin]; [reflexivity|].
    exfalso. apply Hw. rewrite <- He. apply in_map, Hin.
  - destruct Hin as [->|Hin]; [contradiction|].
    destruct (IH Hnd Hin) as (i & Hi & Hv). exists (S i). rewrite Hi. split; [reflexivity | exact Hv].
Qed.

Lemma iloc_comparison (vs : list variant) (i j : nat) :
  iloc (variant_comparison vs) i j =
  match nth_error vs i, nth_error vs j with
  | Some a, Some b => Some (shared_count a b)
  | _, _ => None
  end.
Proof.
  unfold iloc, variant_comparison. rewrite nth_error_map.
  destruct (nth_error vs i) as [a|]; simpl; [|reflexivity].
  rewrite nth_error_map. destruct (nth_error vs j); reflexivity.
Qed.

Lemma shared_count_comm (a b : variant) : shared_count a b = shared_count b a.
Proof. unfold shared_count. f_equal. apply set_eq. set_solver. Qed.

Lemma shared_count_diag (a : variant) :
  shared_count a a = length (nodup string_dec (signature_mutations a)).
Proof.
  unfold shared_count, mutation_set.
  replace (list_to_set (signature_mutations a) ∩ list_to_set (signature_mutations a))
    with (list_to_set (C:=gset string) (nodup string_dec (signature_mutations a))).
  - apply size_list_to_set. apply NoDup_ListNoDup, NoDup_nodup.
  - apply set_eq. intros x. rewrite elem_of_intersection, !elem_of_list_to_set,
      !list_elem_of_In, nodup_In. tauto.
Qed.

Lemma shared_count_le (a b : variant) : shared_count a b <= shared_count a a.
Proof.
  unfold shared_count. apply subseteq_size. set_solver.
Qed.

Lemma find_row (vs : list variant) (ms : list string) (m : string) :
  find (fun r => String.eqb (fst r) m) (map (row vs) ms) =
  option_map (row vs) (find (fun x => String.eqb x m) ms).
Proof.
  induction ms as [|x ms IH]; simpl; [reflexivity|].
  destruct (String.eqb x m); [reflexivity | exact IH].
Qed.














End ComposerFacts.

Module SignatureClaims.
Import Signatures SignatureFacts.

(** Claim C6: [format_mutation] splits an equal-length REF>ALT block of
    length > 1 into one code per offset [ref[i], position + i, alt[i]];
    skips REF>ALT changes whose segments differ in length; and turns a run
    of [N] deletion markers into [N] deletion codes at the same position. *)
Theorem format_mutation_spec :
  (forall (position : Z) (ref alt : string),
     Py.contains gt ref = false -> Py.contains gt alt = false ->
     String.length ref = String.length alt -> 1 < String.length ref ->
     format_mutation position (ref ++ String gt alt) =
     map (fun i => code (Py.index ref i) (position + Z.of_nat i) (Py.index alt i))
         (seq 0 (String.length ref))) /\
  (forall (position : Z) (ref alt : string),
     Py.contains gt ref = false -> Py.contains gt alt = false ->
     String.length ref <> String.length alt ->
     format_mutation position (ref ++ String gt alt) = []) /\
  (forall (position : Z) (n : nat),
     format_mutation position (dashes n) = repeat (code "" position "-") n).
Proof.
  assert (Hsep : forall ref alt, Py.contains gt ref = false ->
            Py.contains gt alt = false ->
            Py.split gt (ref ++ String gt alt) = [ref; alt]).
  { intros ref alt Hr Ha.
    rewrite (PyFacts.split_app_sep _ _ _ Hr), (PyFacts.split_no_sep _ _ Ha).
    reflexivity. }
  split; [|split].
  - intros position ref alt Hr Ha Hlen H1.
    unfold format_mutation.
    rewrite (PyFacts.all_eq_app_other dash gt _ _ eq_refl),
      PyFacts.contains_app_sep, (Hsep _ _ Hr Ha).
    rewrite <- Hlen.
    assert (Hb : Nat.ltb 1 (String.length ref) = true)
      by (apply Nat.ltb_lt; exact H1).
    rewrite Hb, Nat.eqb_refl. simpl.
    apply flat_map_single. intros i Hi.
    apply in_seq in Hi.
    assert (Hi' : Nat.ltb i (String.length ref) = true)
      by (apply Nat.ltb_lt; lia).
    rewrite Hi'. reflexivity.
  - intros position ref alt Hr Ha Hlen.
    unfold format_mutation.
    rewrite (PyFacts.all_eq_app_other dash gt _ _ eq_refl),
      PyFacts.contains_app_sep, (Hsep _ _ Hr Ha).
    assert (He : Nat.eqb (String.length ref) (String.length alt) = false)
      by (apply Nat.eqb_neq; exact Hlen).
    rewrite He, andb_false_r. reflexivity.
  - intros position n. unfold format_mutation.
    rewrite dashes_all, dashes_length, map_const_seq. reflexivity.
Qed.

(** Scenarios 3 and 4 of the spec, through [format_mutation_spec]. *)
Lemma format_mutation_spec_witness :
  format_mutation 28881%Z "GGG>AAC" = ["G28881A"; "G28882A"; "G28883C"] /\
  format_mutation 29734%Z "--" = ["29734-"; "29734-"] /\
  format_mutation 28881%Z "G>AAC" = [].
Proof.
  split; [|split].
  - apply (proj1 format_mutation_spec 28881%Z "GGG" "AAC");
      [reflexivity|reflexivity|reflexivity|simpl; lia].
  - apply (proj2 (proj2 format_mutation_spec) 29734%Z 2).
  - apply (proj1 (proj2 format_mutation_spec) 28881%Z "G" "AAC");
      [reflexivity|reflexivity|discriminate].
Defined.

End SignatureClaims.

Module MutationClaims.
Import Mutation MutationFacts.




End MutationClaims.

Module AggregatorClaims.
Import Aggregator AggregatorFacts AggregatorExamples.

(** Claim C2: a failed count query does not abort the aggregation.
    It does: the failed query's ["data"] is [None], the coverage sum guards
    it but the stratification loop [for entry in item['data']] does not, so
    the call raises a [TypeError]; wherever the mutation sits in the list,
    the call returns no results at all. *)
Theorem failed_query_aborts (svc : service) (m : string) (ms : list string)
    (target nt : string) :
  py_last m = Some target -> In nt nucleotides ->
  svc (py_init m ++ nt) "nucleotide" = None ->
  (exists msg, snd (fetch_mutation_counts_and_coverage svc (m :: ms) "nucleotide")
               = inl (TypeError msg)) /\
  (forall ms0, exists e,
     snd (fetch_mutation_counts_and_coverage svc (ms0 ++ m :: ms)%list "nucleotide")
     = inl e).
Proof.
  intros Hl Hin Hnone.
  assert (Hf : fetch_sample_aggregated svc (py_init m ++ nt) "nucleotide" = None)
    by exact Hnone.
  destruct (process_mutation_none svc "nucleotide" nucleotides m target nt Hl Hin Hf)
    as [msg Hmsg].
  assert (Hm : exists msg, snd (mutation_loop svc "nucleotide" (m :: ms))
                           = inl (TypeError msg)).
  { exists msg. simpl.
    destruct (process_mutation svc "nucleotide" nucleotides m) as [q [ex|res]].
    - simpl in Hmsg. injection Hmsg as ->. reflexivity.
    - discriminate Hmsg. }
  split.
  - exact Hm.
  - intros ms0. apply (mutation_loop_error_app svc "nucleotide" "nucleotide" nucleotides);
      [reflexivity|].
    destruct Hm as [msg' Hm]. exists (TypeError msg'). exact Hm.
Qed.

Lemma failed_query_aborts_witness :
  (exists msg, snd (fetch_mutation_counts_and_coverage svc_fail ["A123T"] "nucleotide")
               = inl (TypeError msg)) /\
  (forall ms0, exists e,
     snd (fetch_mutation_counts_and_coverage svc_fail (ms0 ++ ["A123T"])%list "nucleotide")
     = inl e).
Proof.
  exact (failed_query_aborts svc_fail "A123T" [] "T" "C" eq_refl
           (or_intror (or_intror (or_introl eq_refl))) eq_refl).
Defined.

(** The failing input of claim C2: the second mutation's query for [C]
    fails, and the result computed for [C241T] is lost with it. *)
Example failed_query_aborts_example :
  fetch_mutation_counts_and_coverage svc_fail ["C241T"; "A123T"] "nucleotide" =
  (["C241A"; "C241T"; "C241C"; "C241G"; "A123A"; "A123T"; "A123C"; "A123G"],
   inl (TypeError "'NoneType' object is not iterable")).
Proof. reflexivity. Qed.

(** Claim C4, as stated: the overall frequency is ["NA"] exactly when the
    overall coverage is 0. It fails: with zero coverage the overall
    frequency is the number 0 (only the stratified records carry ["NA"]). *)
Lemma coverage_frequency_counterexample :
  fetch_mutation_counts_and_coverage svc_zero ["A123T"] "nucleotide" =
  (["A123A"; "A123T"; "A123C"; "A123G"],
   inr [mk_result "A123T" 0 0%Q [("A", 0); ("T", 0); ("C", 0); ("G", 0)]
          [mk_strat "2025-01-01" 0 NA NA]]).
Proof. reflexivity. Qed.

(** Claim C4, amended: for every result of a successful nucleotide call,
    the coverage (overall, and on each reported date) is the sum of the
    counts of the four queried symbols A, T, C, G; the frequency is the
    target's count (0 if the target is none of them) over the coverage and
    lies in [0,1] when the coverage is positive; on a date with coverage 0
    the count and frequency are both ["NA"], while the overall frequency
    with coverage 0 is 0. *)
Theorem coverage_frequency_formulas (svc : service) (ms qs : list string)
    (rs : list result) :
  fetch_mutation_counts_and_coverage svc ms "nucleotide" = (qs, inr rs) ->
  forall r, In r rs ->
  exists target,
    py_last (res_mutation r) = Some target /\
    res_coverage r =
      list_sum (map (fun nt => total_count (symbol_data svc "nucleotide" (res_mutation r) nt))
                    nucleotides) /\
    res_frequency r =
      (if Nat.ltb 0 (res_coverage r)
       then div_q (target_total_count svc "nucleotide" nucleotides (res_mutation r) target)
                  (res_coverage r)
       else 0%Q) /\
    ((0 < res_coverage r)%nat -> (0 <= res_frequency r <= 1)%Q) /\
    forall st, In st (res_stratified r) ->
      st_coverage st =
        list_sum (map (fun nt => date_count (symbol_data svc "nucleotide" (res_mutation r) nt)
                                   (st_date st)) nucleotides) /\
      st_count st =
        (if Nat.ltb 0 (st_coverage st)
         then Val (target_date_count svc "nucleotide" nucleotides (res_mutation r) target
                     (st_date st))
         else NA) /\
      st_frequency st =
        (if Nat.ltb 0 (st_coverage st)
         then Val (div_q (target_date_count svc "nucleotide" nucleotides (res_mutation r) target
                            (st_date st)) (st_coverage st))
         else NA) /\
      ((0 < st_coverage st)%nat ->
       exists q, st_frequency st = Val q /\ (0 <= q <= 1)%Q).
Proof.
  intros H r Hr.
  destruct (fetch_nucleotide_result svc ms qs rs H r Hr)
    as (t & Hl & Hc & Hf & Hle & Hs).
  exists t. split; [exact Hl|]. split; [exact Hc|]. split; [exact Hf|]. split.
  - intros Hpos. rewrite Hf. apply Nat.ltb_lt in Hpos as Hb. rewrite Hb.
    apply div_q_unit; assumption.
  - intros st Hst. destruct (Hs st Hst) as (Hsc & Hsle & Hsn & Hsf).
    split; [exact Hsc|]. split; [exact Hsn|]. split; [exact Hsf|].
    intros Hpos. apply Nat.ltb_lt in Hpos as Hb. rewrite Hb in Hsf.
    eexists. split; [exact Hsf|]. apply div_q_unit; assumption.
Qed.

Lemma coverage_frequency_formulas_witness :
  exists qs rs,
    fetch_mutation_counts_and_coverage svc_counts ["A123T"] "nucleotide" = (qs, inr rs) /\
    forall r, In r rs ->
    exists target,
      py_last (res_mutation r) = Some target /\
      res_coverage r =
        list_sum (map (fun nt => total_count (symbol_data svc_counts "nucleotide"
                                                (res_mutation r) nt)) nucleotides) /\
      res_frequency r =
        (if Nat.ltb 0 (res_coverage r)
         then div_q (target_total_count svc_counts "nucleotide" nucleotides
                       (res_mutation r) target) (res_coverage r)
         else 0%Q) /\
      ((0 < res_coverage r)%nat -> (0 <= res_frequency r <= 1)%Q) /\
      forall st, In st (res_stratified r) ->
        st_coverage st =
          list_sum (map (fun nt => date_count (symbol_data svc_counts "nucleotide"
                                                 (res_mutation r) nt) (st_date st))
                        nucleotides) /\
        st_count st =
          (if Nat.ltb 0 (st_coverage st)
           then Val (target_date_count svc_counts "nucleotide" nucleotides
                       (res_mutation r) target (st_date st))
           else NA) /\
        st_frequency st =
          (if Nat.ltb 0 (st_coverage st)
           then Val (div_q (target_date_count svc_counts "nucleotide" nucleotides
                              (res_mutation r) target (st_date st)) (st_coverage st))
           else NA) /\
        ((0 < st_coverage st)%nat ->
         exists q, st_frequency st = Val q /\ (0 <= q <= 1)%Q).
Proof.
  do 2 eexists. split; [reflexivity|].
  apply (coverage_frequency_formulas svc_counts ["A123T"] ["A123A"; "A123T"; "A123C"; "A123G"]).
  reflexivity.
Defined.

(** Claim C7, as stated: an amino-acid call issues one query per residue
    of the 20-residue alphabet. It fails: the call raises
    [NotImplementedError] before issuing any query. *)
Lemma amino_acid_queries_counterexample :
  fetch_mutation_counts_and_coverage svc_counts ["A123T"] "aminoAcid" =
  ([], inl (NotImplementedError "Unknown mutation type: aminoAcid")) /\
  length (fst (fetch_mutation_counts_and_coverage svc_counts ["A123T"] "aminoAcid")) <> 20.
Proof. split; [reflexivity|discriminate]. Qed.

(** Claim C7, amended: every mutation type other than ["nucleotide"]
    (["aminoAcid"] included) raises [NotImplementedError] before any query
    is issued; a successful nucleotide call issues, for each mutation, one
    query per symbol A, T, C, G, formed from the mutation without its last
    character, so 4 queries per mutation. *)
Theorem mutation_type_queries :
  (forall (svc : service) (ms : list string) (mt : string),
     mt <> "nucleotide" ->
     fetch_mutation_counts_and_coverage svc ms mt =
     ([], inl (NotImplementedError ("Unknown mutation type: " ++ mt)))) /\
  (forall (svc : service) (ms qs : list string) (rs : list result),
     fetch_mutation_counts_and_coverage svc ms "nucleotide" = (qs, inr rs) ->
     qs = flat_map (fun m => map (fun nt => py_init m ++ nt) nucleotides) ms /\
     length qs = 4 * length ms).
Proof.
  split.
  - intros svc ms mt Hmt. unfold fetch_mutation_counts_and_coverage. simpl.
    destruct (String.eqb mt "nucleotide") eqn:E.
    + apply String.eqb_eq in E. contradiction.
    + reflexivity.
  - intros svc ms qs rs H. destruct (fetch_nucleotide_ok svc ms qs rs H) as [Hq _].
    split; [exact Hq|]. rewrite Hq. apply flat_map_length4. reflexivity.
Qed.

Lemma mutation_type_queries_witness :
  fetch_mutation_counts_and_coverage svc_counts ["A123T"] "aminoAcid" =
  ([], inl (NotImplementedError "Unknown mutation type: aminoAcid")) /\
  exists qs rs,
    fetch_mutation_counts_and_coverage svc_counts ["A123T"; "C241T"] "nucleotide"
      = (qs, inr rs) /\
    qs = flat_map (fun m => map (fun nt => py_init m ++ nt) nucleotides) ["A123T"; "C241T"] /\
    length qs = 8.
Proof.
  split.
  - apply (proj1 mutation_type_queries). discriminate.
  - do 2 eexists. split; [reflexivity|].
    eapply (proj2 mutation_type_queries svc_counts ["A123T"; "C241T"]). reflexivity.
Defined.

(** Claim C10: for a nucleotide call, only the four symbols A, T, C, G are
    queried; when a mutation's target symbol is none of them (a deletion
    [-], or [N]), its overall frequency is 0 and, on every date with
    positive coverage, its count is 0 and its frequency is 0. *)
Theorem non_acgt_target_zero (svc : service) (ms qs : list string) (rs : list result) :
  fetch_mutation_counts_and_coverage svc ms "nucleotide" = (qs, inr rs) ->
  qs = flat_map (fun m => map (fun nt => py_init m ++ nt) nucleotides) ms /\
  forall r, In r rs ->
  forall target, py_last (res_mutation r) = Some target -> ~ In target nucleotides ->
    res_frequency r == 0 /\
    forall st, In st (res_stratified r) -> (0 < st_coverage st)%nat ->
      st_count st = Val 0 /\ exists q, st_frequency st = Val q /\ q == 0.
Proof.
  intros H. split; [exact (proj1 (fetch_nucleotide_ok svc ms qs rs H))|].
  intros r Hr target Hl Hnot.
  destruct (fetch_nucleotide_result svc ms qs rs H r Hr) as (t & Hl' & _ & Hf & _ & Hs).
  rewrite Hl in Hl'. injection Hl' as <-.
  assert (E : existsb (String.eqb target) nucleotides = false).
  { destruct (existsb (String.eqb target) nucleotides) eqn:E; [|reflexivity].
    apply existsb_eqb_In in E. contradiction. }
  unfold target_total_count, target_date_count in *. rewrite E in Hf, Hs.
  split.
  - rewrite Hf. destruct (Nat.ltb 0 (res_coverage r)); [apply div_q_zero|reflexivity].
  - intros st Hst Hpos. destruct (Hs st Hst) as (_ & _ & Hsn & Hsf).
    apply Nat.ltb_lt in Hpos. rewrite Hpos in Hsn, Hsf.
    split; [exact Hsn|]. eexists. split; [exact Hsf|]. apply div_q_zero.
Qed.

Lemma non_acgt_target_zero_witness :
  exists qs rs,
    fetch_mutation_counts_and_coverage svc_counts ["A123-"] "nucleotide" = (qs, inr rs) /\
    qs = flat_map (fun m => map (fun nt => py_init m ++ nt) nucleotides) ["A123-"] /\
    forall r, In r rs ->
    forall target, py_last (res_mutation r) = Some target -> ~ In target nucleotides ->
      res_frequency r == 0 /\
      forall st, In st (res_stratified r) -> (0 < st_coverage st)%nat ->
        st_count st = Val 0 /\ exists q, st_frequency st = Val q /\ q == 0.
Proof.
  do 2 eexists. split; [reflexivity|].
  apply (non_acgt_target_zero svc_counts ["A123-"] ["A123A"; "A123T"; "A123C"; "A123G"]).
  reflexivity.
Defined.

End AggregatorClaims.

Module ComposerClaims.
Import Composer ComposerFacts.




End ComposerClaims.

Module WorkerClaims.
Import Worker.

(** Closes goals about a concrete list of progress records. *)
Ltac progress_facts :=
  repeat match goal with
  | |- Sorted _ _ => constructor
  | |- HdRel _ _ _ => constructor
  | |- Forall _ _ => constructor
  | |- _ /\ _ => split
  | |- Qle _ _ => unfold Qle; simpl; lia
  | |- In _ _ => cbn
  | |- _ \/ _ => first [left; reflexivity | right]
  | |- _ = _ => reflexivity
  end.

(** Claim C3: a failing engine run or an input that cannot be
    deserialized aborts the job and stores the error message in the
    progress record. The engine's non-zero exits do not: [devconvolve]
    turns a [CalledProcessError] into [exit(1)], whose [SystemExit] passes
    the task's [except Exception] handler, so the last record written is
    stage 3, "Running deconvolution algorithm", and no record carries an
    error. An [Exception] from the engine (malformed JSON output) and a
    deserialization failure are recorded as ["Error: " ++ message]. *)
Theorem engine_exit_not_recorded :
  (forall (inp : job_input) (bootstraps : string),
     is_bad_text inp = false ->
     snd (run_deconvolve inp EngineExit bootstraps) = Raised (SystemExit 1) /\
     List.last (fst (run_deconvolve inp EngineExit bootstraps)) (mk_progress 0 0 "" None) =
       mk_progress 3 5 "Running deconvolution algorithm" None /\
     Forall (fun p => String.prefix "Error" (status p) = false)
            (fst (run_deconvolve inp EngineExit bootstraps))) /\
  (forall (inp : job_input) (bootstraps msg : string),
     is_bad_text inp = false ->
     snd (run_deconvolve inp (EngineError msg) bootstraps) = Raised (Exception msg) /\
     List.last (fst (run_deconvolve inp (EngineError msg) bootstraps)) (mk_progress 0 0 "" None) =
       mk_progress 3 5 ("Error: " ++ msg) None) /\
  (forall (msg : string) (eng : engine) (bootstraps : string),
     List.last (fst (run_deconvolve (BadText msg) eng bootstraps)) (mk_progress 0 0 "" None) =
       mk_progress 2 5
         ("Error: Failed to process DataFrames: Failed to deserialize DataFrames: " ++ msg)
         None).
Proof.
  split; [|split].
  - intros inp bs H.
    destruct inp; try discriminate H; split; try reflexivity; split; try reflexivity;
      simpl; repeat constructor.
  - intros inp bs msg H.
    destruct inp; try discriminate H; split; reflexivity.
  - intros msg eng bs. reflexivity.
Qed.

Lemma engine_exit_not_recorded_witness :
  snd (run_deconvolve Frames EngineExit "default") = Raised (SystemExit 1) /\
  List.last (fst (run_deconvolve Frames EngineExit "default")) (mk_progress 0 0 "" None) =
    mk_progress 3 5 "Running deconvolution algorithm" None /\
  Forall (fun p => String.prefix "Error" (status p) = false)
         (fst (run_deconvolve Frames EngineExit "default")).
Proof. apply (proj1 engine_exit_not_recorded Frames "default"). reflexivity. Defined.

(** Claim C9, as stated: every stage written is an integer in 1..5. It
    fails: a successful run on DataFrames writes the stages
    0, 1, 1.5, 2, 3, 4, 5. *)
Lemma progress_stages_counterexample :
  map current (fst (run_deconvolve Frames (EngineOk "result") "default")) =
    [0; 1; 3 # 2; 2; 3; 4; 5]%Q /\
  In 0%Q (map current (fst (run_deconvolve Frames (EngineOk "result") "default"))) /\
  In (3 # 2) (map current (fst (run_deconvolve Frames (EngineOk "result") "default"))).
Proof.
  split; [reflexivity|]. split; progress_facts.
Qed.

(** Claim C9, amended: for every input and every engine outcome, the
    stages written to the progress record never decrease, each is one of
    0, 1, 1.5, 2, 3, 4, 5 (so lies in [0,5]), and the total is always 5.
    The first three writes have the stages 0, 1 and 1.5. When the task
    raises an [Exception], its last write records ["Error: " ++ message]
    and keeps the stage of the write before it. *)
Theorem progress_stages_monotone (inp : job_input) (eng : engine) (bootstraps : string) :
  Sorted Qle (map current (fst (run_deconvolve inp eng bootstraps))) /\
  Forall (fun p => In (current p) [0; 1; 3 # 2; 2; 3; 4; 5]%Q /\
                   (0 <= current p <= 5)%Q /\ total p = 5)
         (fst (run_deconvolve inp eng bootstraps)) /\
  firstn 3 (map current (fst (run_deconvolve inp eng bootstraps))) = [0; 1; 3 # 2]%Q /\
  (forall msg, snd (run_deconvolve inp eng bootstraps) = Raised (Exception msg) ->
     let writes := fst (run_deconvolve inp eng bootstraps) in
     current (List.last writes (mk_progress 0 0 "" None)) =
       current (List.last (removelast writes) (mk_progress 0 0 "" None)) /\
     status (List.last writes (mk_progress 0 0 "" None)) = "Error: " ++ msg).
Proof.
  split; [|split; [|split]].
  - destruct inp, eng; simpl; progress_facts.
  - destruct inp, eng; simpl; progress_facts.
  - destruct inp, eng; reflexivity.
  - intros msg H. destruct inp, eng; cbn in H; inversion H; subst; split; reflexivity.
Qed.

End WorkerClaims.

Module RegistryClaims.
Import Registry RegistryFacts SignaturesApi RegistryState RegistryStateFacts.



(** The run of the composer page behind claim C8, step by step: with
    [LP.8] curated and selected, the user deselects it, adds the manual
    variant [LP.8] (registered as custom before the handler raises), and
    selects [LP.8] again: the selection handler keeps the custom entry,
    and the next run's sync replaces it by the curated one. *)
Lemma composer_custom_entry_replaced :
  let r1 := sync_curated_selection example_registry [] example_curated in
  let r2 := fst (fst (add_manual_variant r1 "LP.8" ["A123T"])) in
  let r3 := sync_curated_selection r2 ["LP.8"] example_curated in
  r1 !! "LP.8" = None /\
  snd (add_manual_variant r1 "LP.8" ["A123T"]) = missing_attribute_error /\
  r2 !! "LP.8" = Some (mk_registered "LP.8" ["A123T"] CUSTOM_MANUAL) /\
  r3 !! "LP.8" = Some (mk_registered "LP.8" ["A123T"] CUSTOM_MANUAL) /\
  sync_combined_variants r3 [] ["LP.8"] example_curated !! "LP.8" =
    Some (mk_registered "LP.8" ["C241T"] CURATED).
Proof.
  vm_compute. repeat split.
Qed.

End RegistryClaims.

Module SignaturesApiProps.
Import Mutation MutationFacts SignaturesApi SignaturesApiFacts.



(** [validate_mutation_strings] keeps the accepted strings unchanged and
    in input order, collects one error message per rejected string in
    input order, reports [all_valid] exactly when there is no error, and
    accounts for every input string once. *)
Theorem validate_mutation_strings_spec (l : list string) :
  validate_mutation_strings l =
    (forallb accepted l, List.filter accepted l, flat_map error_of l) /\
  (forallb accepted l = true <-> flat_map error_of l = []) /\
  length (List.filter accepted l) + length (flat_map error_of l) = length l.
Proof.
  split; [|split].
  - unfold validate_mutation_strings. rewrite validate_fold. reflexivity.
  - apply accepted_errors.
  - apply accepted_errors_length.
Qed.

(** Every signature mutation that [Variant.from_variant_definition]
    produces from well-formed entries (a positive position, and a change
    that is a run of ['-'] or [REF>ALT] with REF over ACGTN and ALT over
    ACGTN-) is accepted by [Mutation.validate_mutation_string] and
    formats back to itself, as long as the positions it writes stay
    below [10 ^ 4300] (beyond, [str()] in [format_mutation] and [int()]
    in the validator refuse them). *)
Theorem from_variant_definition_valid (vd : variant_definition) :
  (forall pos change, In (pos, change) (mut vd) ->
     (0 < pos)%Z /\
     (pos + Z.of_nat (String.length change) <= 10 ^ Z.of_nat Py.int_max_str_digits)%Z /\
     (Py.all_eq Signatures.dash change = true \/
      exists ref alt, change = ref ++ String Signatures.gt alt /\
        (forall c, In c (list_ascii_of_string ref) -> Py.contains c ref_chars = true) /\
        (forall c, In c (list_ascii_of_string alt) -> Py.contains c alt_chars = true))) ->
  forall m, In m (v_signature_mutations (from_variant_definition vd)) ->
  exists d, validate_mutation_string m = Valid d /\ format d = m.
Proof.
  intros Hwf m Hm. simpl in Hm. apply in_flat_map in Hm as ([pos change] & Hin & Hm).
  destruct (Hwf pos change Hin) as (Hpos & Hbound & Hch).
  destruct (format_mutation_canonical pos change m Hpos Hch Hm)
    as (ref & p & alt & -> & Hr & Ha & Hp & Hlt).
  exists (mk_mutation_data p ref alt). split; [|reflexivity].
  apply validate_canonical; [assumption | assumption | assumption | lia].
Qed.

Lemma from_variant_definition_valid_witness :
  exists d, validate_mutation_string "G28882A" = Valid d /\ format d = "G28882A".
Proof.
  apply (from_variant_definition_valid example_definition).
  - intros pos change H. simpl in H.
    destruct H as [H|[H|[H|[]]]]; inversion H; subst; split; try lia;
      (split; [vm_compute; discriminate|]).
    + right. exists "GGG", "AAC". split; [reflexivity|].
      split; intros c Hc; simpl in Hc;
        repeat (destruct Hc as [<-|Hc]; [reflexivity|]); destruct Hc.
    + left. reflexivity.
    + right. exists "C", "T". split; [reflexivity|].
      split; intros c Hc; simpl in Hc;
        repeat (destruct Hc as [<-|Hc]; [reflexivity|]); destruct Hc.
  - vm_compute. right. left. reflexivity.
Defined.

(** [get_variant_list] holds one [Variant] per loaded definition, in
    order, and [get_variant_by_name] on it returns the conversion of the
    first definition whose pangolin name matches, or [None]. *)
Theorem get_variant_by_name_first (defs : list variant_definition) (name : string) :
  get_variant_list defs = map from_variant_definition defs /\
  get_variant_names defs = map (fun d => pangolin (variant d)) defs /\
  get_variant_by_name (get_variant_list defs) name =
    option_map from_variant_definition
      (find (fun d => String.eqb (pangolin (variant d)) name) defs).
Proof.
  assert (Hl : get_variant_list defs = map from_variant_definition defs)
    by (unfold get_variant_list; rewrite get_variant_list_app; reflexivity).
  split; [exact Hl|]. split.
  - unfold get_variant_names. rewrite Hl, map_map. reflexivity.
  - unfold get_variant_by_name. rewrite Hl, find_map. reflexivity.
Qed.

(** [VariantList]: after [add_variant], [get_variant_by_name] still
    returns an earlier variant of the same name (the new one is shadowed);
    [remove_variant] raises exactly when the variant is absent, removes
    only its first occurrence, and undoes an [add_variant] of an absent
    variant. *)
Theorem variant_list_add_remove (vl : list sig_variant) (v : sig_variant) (name : string) :
  get_variant_by_name (add_variant vl v) name =
    match get_variant_by_name vl name with
    | Some w => Some w
    | None => if String.eqb (v_name v) name then Some v else None
    end /\
  (remove_variant vl v = None <-> ~ In v vl) /\
  (forall rest, remove_variant vl v = Some rest ->
     exists l1 l2, vl = app l1 (v :: l2) /\ ~ In v l1 /\ rest = app l1 l2) /\
  (~ In v vl -> remove_variant (add_variant vl v) v = Some vl).
Proof.
  split; [|split; [|split]].
  - unfold get_variant_by_name, add_variant. rewrite find_app. simpl.
    destruct (find _ vl); [reflexivity|]. destruct (String.eqb (v_name v) name); reflexivity.
  - induction vl as [|x vl IH]; simpl; [tauto|].
    destruct (sig_variant_eq_dec x v) as [->|Hne].
    + split; [discriminate | intros H; exfalso; apply H; left; reflexivity].
    + destruct (remove_variant vl v); simpl.
      * split; [discriminate|]. intros H. exfalso.
        assert (Hn : ~ In v vl) by tauto. apply IH in Hn. discriminate.
      * split; [|reflexivity]. intros _ [H|H]; [congruence|]. apply IH in H; [exact H | reflexivity].
  - induction vl as [|x vl IH]; intros rest H; simpl in H; [discriminate|].
    destruct (sig_variant_eq_dec x v) as [->|Hne].
    + injection H as H. subst rest. exists [], vl. simpl. tauto.
    + destruct (remove_variant vl v) as [r|] eqn:Hr; simpl in H; [|discriminate].
      injection H as H. subst rest. destruct (IH r eq_refl) as (l1 & l2 & -> & Hn & ->).
      exists (x :: l1), l2. simpl. split; [reflexivity|]. split; [|reflexivity].
      intros [H'|H']; [congruence | contradiction].
  - unfold add_variant. induction vl as [|x vl IH]; intros Hn; simpl.
    + destruct (sig_variant_eq_dec v v); [reflexivity | contradiction].
    + destruct (sig_variant_eq_dec x v) as [->|Hne]; [exfalso; apply Hn; left; reflexivity|].
      rewrite IH; [reflexivity|]. intros H. apply Hn. right. exact H.
Qed.

Lemma variant_list_add_remove_witness :
  let lp8 := from_variant_definition example_definition in
  let ba2 := mk_sig_variant "BA.2" "BA.2" "" ["A123T"] in
  remove_variant (add_variant [lp8] ba2) ba2 = Some [lp8] /\ remove_variant [lp8] ba2 = None.
Proof.
  intros lp8 ba2.
  assert (Hn : ~ In ba2 [lp8]) by (intros [H|[]]; discriminate H).
  split.
  - apply (proj2 (proj2 (proj2 (variant_list_add_remove [lp8] ba2 "BA.2"))) Hn).
  - apply (proj2 (proj1 (proj2 (variant_list_add_remove [lp8] ba2 "BA.2")))), Hn.
Defined.

End SignaturesApiProps.

Module RegistryStateProps.
Import Registry SignaturesApi RegistryState RegistryStateFacts.

(** The registry operations of [VariantSignatureComposerState]:
    [register_variant] makes its name registered and nothing else;
    [unregister_variant] removes exactly its name (and does nothing when
    the name is absent); unregistering a name just registered gives the
    registry with that name deleted; [get_variants_by_source] lists
    exactly the registered values of that source. *)
Theorem registry_state_ops (reg : registry) (name : string) (muts : list string)
    (src : variant_source) (n : string) (source : variant_source) (d : registered) :
  is_variant_registered (register_variant reg name muts src) n =
    (String.eqb n name || is_variant_registered reg n) /\
  unregister_variant reg name !! n = (if String.eqb n name then None else reg !! n) /\
  unregister_variant (register_variant reg name muts src) name = delete name reg /\
  (In d (get_variants_by_source reg source) <->
     exists k, reg !! k = Some d /\ r_source d = source).
Proof.
  assert (Hreg : forall k, is_variant_registered (register_variant reg name muts src) k =
                           (String.eqb k name || is_variant_registered reg k)).
  { intros k. unfold is_variant_registered, register_variant, registry in *.
    destruct (String.eqb_spec k name) as [->|Hne].
    - rewrite lookup_insert_eq. reflexivity.
    - rewrite lookup_insert_ne by congruence. reflexivity. }
  split; [apply Hreg|]. split; [apply unregister_lookup|]. split.
  - unfold unregister_variant. rewrite Hreg, String.eqb_refl. simpl.
    unfold register_variant, registry in *. apply delete_insert_eq.
  - unfold get_variants_by_source. rewrite List.filter_In, in_map_iff, source_eqb_eq.
    split.
    + intros [([k d'] & Hd & Hin) Hs]. simpl in Hd. subst d'.
      apply list_elem_of_In, elem_of_map_to_list in Hin. exists k. split; assumption.
    + intros (k & Hk & Hs). split; [|exact Hs]. exists (k, d). split; [reflexivity|].
      apply list_elem_of_In, elem_of_map_to_list. exact Hk.
Qed.

(** The composer page's reaction to a change of the curated selection:
    afterwards every selected name that the curated list knows is
    registered; every curated entry is selected; every entry that is not
    curated, and every selected entry, is kept unchanged (a selected
    curated variant already registered is not refreshed); and every
    other entry is a fresh curated entry for a selected name, with the
    signature mutations of the last curated variant of that name. *)
Theorem sync_curated_selection_spec (reg : registry) (selected : list string)
    (all_curated : list sig_variant) :
  let reg' := sync_curated_selection reg selected all_curated in
  (forall n v, In n selected -> curated_variant_map_lookup all_curated n = Some v ->
     is_variant_registered reg' n = true) /\
  (forall n d, reg' !! n = Some d -> r_source d = CURATED -> In n selected) /\
  (forall n d, reg !! n = Some d -> (r_source d <> CURATED \/ In n selected) ->
     reg' !! n = Some d) /\
  (forall n d, reg' !! n = Some d ->
     reg !! n = Some d \/
     (In n selected /\ exists v, curated_variant_map_lookup all_curated n = Some v /\
        d = mk_registered n (v_signature_mutations v) CURATED)).
Proof.
  intros reg'. unfold reg', sync_curated_selection.
  split; [|split; [|split]].
  - intros n v Hin Hl. eapply register_fold_registers; eassumption.
  - intros n d H Hs.
    destruct (register_fold_new _ _ _ _ _ H) as [H1|[Hin _]]; [|exact Hin].
    rewrite unregister_deselected_lookup in H1.
    destruct (reg !! n) as [d0|]; [|discriminate].
    destruct (source_eqb (r_source d0) CURATED && negb (existsb (String.eqb n) selected))
      eqn:E; [discriminate|].
    injection H1 as <-. rewrite Hs in E. simpl in E. apply negb_false_iff in E.
    apply existsb_exists in E as (x & Hx & Heq). apply String.eqb_eq in Heq. subst x.
    exact Hx.
  - intros n d Hn Hc. apply register_fold_keep.
    rewrite unregister_deselected_lookup, Hn.
    replace (source_eqb (r_source d) CURATED && negb (existsb (String.eqb n) selected))
      with false; [reflexivity|].
    destruct Hc as [Hc|Hc].
    + destruct (r_source d); [contradiction | reflexivity | reflexivity].
    + replace (existsb (String.eqb n) selected) with true; [rewrite andb_false_r; reflexivity|].
      symmetry. apply existsb_exists. exists n. split; [exact Hc | apply String.eqb_refl].
  - intros n d H.
    destruct (register_fold_new _ _ _ _ _ H) as [H1|Hnew]; [left|right; exact Hnew].
    rewrite unregister_deselected_lookup in H1.
    destruct (reg !! n) as [d0|] eqn:E; [|discriminate].
    destruct (_ && _); [discriminate | exact H1].
Qed.

Lemma sync_curated_selection_spec_witness :
  is_variant_registered (sync_curated_selection example_registry ["BA.2"] example_curated)
    "BA.2" = true.
Proof.
  apply (proj1 (sync_curated_selection_spec example_registry ["BA.2"] example_curated)
           "BA.2" (mk_sig_variant "BA.2" "BA.2" "" ["A123T"])).
  - left. reflexivity.
  - reflexivity.
Defined.

End RegistryStateProps.

Module ComposerProps.
Import Composer ComposerCompare ComposerFacts.

(** The shared-mutation matrix of the composer page is symmetric; its
    diagonal entry for a variant is the number of distinct signature
    mutations of that variant; and every entry is at most the two
    diagonal entries of its row and column. *)
Theorem variant_comparison_spec (vs : list variant) (i j : nat) :
  iloc (variant_comparison vs) i j = iloc (variant_comparison vs) j i /\
  (forall v, nth_error vs i = Some v ->
     iloc (variant_comparison vs) i i =
       Some (length (nodup string_dec (signature_mutations v)))) /\
  (forall x, iloc (variant_comparison vs) i j = Some x ->
     exists xi xj, iloc (variant_comparison vs) i i = Some xi /\
       iloc (variant_comparison vs) j j = Some xj /\ x <= xi /\ x <= xj).
Proof.
  rewrite !iloc_comparison. split; [|split].
  - destruct (nth_error vs i), (nth_error vs j); try reflexivity.
    rewrite shared_count_comm. reflexivity.
  - intros v ->. rewrite shared_count_diag. reflexivity.
  - intros x H. destruct (nth_error vs i) as [a|], (nth_error vs j) as [b|];
      try discriminate.
    injection H as <-. exists (shared_count a a), (shared_count b b).
    split; [reflexivity|]. split; [reflexivity|].
    split; [apply shared_count_le|]. rewrite shared_count_comm. apply shared_count_le.
Qed.

Lemma variant_comparison_spec_witness :
  iloc (variant_comparison example_variants) 0 0 = Some 1.
Proof.
  apply (proj1 (proj2 (variant_comparison_spec example_variants 0 0))
           (mk_variant "XBB" ["C241T"])).
  reflexivity.
Defined.

(** The rows of the composer page's matrix are sorted by descending
    [extract_position]; their mutations are the distinct signature
    mutations of the selected variants, each once; each row holds the
    membership cells of its mutation in selection order; and the column
    labels are ["Mutation"] followed by the variant names sorted
    alphabetically. *)
Theorem composer_matrix_shape (vs : list variant) :
  Sorted (fun r1 r2 => extract_position (fst r2) <= extract_position (fst r1))
    (snd (composer_matrix vs)) /\
  Permutation (map fst (snd (composer_matrix vs)))
    (nodup string_dec (flat_map signature_mutations vs)) /\
  List.NoDup (map fst (snd (composer_matrix vs))) /\
  (forall r, In r (snd (composer_matrix vs)) -> r = row vs (fst r)) /\
  (exists cols, fst (composer_matrix vs) = "Mutation" :: cols /\
     Permutation cols (map name vs) /\ Sorted (fun a b => str_ltb b a = false) cols).
Proof.
  unfold composer_matrix. cbv zeta. cbn [fst snd].
  set (ltr := fun r1 r2 : string * list nat =>
                Nat.ltb (extract_position (fst r2)) (extract_position (fst r1))).
  assert (Hasym : forall a b, ltr a b = true -> ltr b a = false).
  { unfold ltr. intros a b H. apply Nat.ltb_lt in H. apply Nat.ltb_ge. lia. }
  assert (Hperm : Permutation (map fst (sort_by ltr (map (row vs) (all_mutations vs))))
                    (nodup string_dec (flat_map signature_mutations vs))).
  { rewrite (sort_by_perm _ ltr), map_map. cbn [fst row]. rewrite map_id.
    apply all_mutations_perm. }
  split; [|split; [exact Hperm|split; [|split]]].
  - apply (sorted_impl (fun a b => ltr b a = false)); [|apply sort_by_sorted, Hasym].
    unfold ltr. intros a b H. apply Nat.ltb_ge. exact H.
  - apply (Permutation_NoDup (Permutation_sym Hperm)), NoDup_nodup.
  - intros r Hr. apply (Permutation_in _ (sort_by_perm _ ltr _)), in_map_iff in Hr.
    destruct Hr as (m & <- & _). reflexivity.
  - exists (sort_by str_ltb (map name vs)). split; [reflexivity|]. split.
    + apply sort_by_perm.
    + apply sort_by_sorted. apply str_ltb_asym.
Qed.

(** In the matrix of the multi-variant signatures page, when the selected
    variants have distinct names, the cell of a mutation [m] of the
    selection and a selected variant [v] is 1 if [m] is a signature
    mutation of [v] and 0 otherwise; a mutation of no selected variant
    has no row. *)
Theorem sibling_matrix_cell (vs : list variant) (v : variant) (m : string) :
  List.NoDup (map name vs) -> In v vs ->
  (In m (flat_map signature_mutations vs) ->
     (In m (signature_mutations v) -> cell (sibling_matrix vs) m (name v) = Some 1) /\
     (~ In m (signature_mutations v) -> cell (sibling_matrix vs) m (name v) = Some 0)) /\
  (~ In m (flat_map signature_mutations vs) -> cell (sibling_matrix vs) m (name v) = None).
Proof.
  intros Hnd Hv. unfold cell, sibling_matrix. cbn [fst snd tl].
  rewrite find_row. split.
  - intros Hm. rewrite find_eqb_in by (apply all_mutations_in; exact Hm).
    destruct (index_of_name vs v Hnd Hv) as (i & -> & Hi). simpl.
    rewrite nth_error_map, Hi. simpl.
    split; intros H.
    + apply AggregatorFacts.existsb_eqb_In in H. rewrite H. reflexivity.
    + destruct (existsb (String.eqb m) (signature_mutations v)) eqn:E; [|reflexivity].
      apply AggregatorFacts.existsb_eqb_In in E. contradiction.
  - intros Hm. rewrite find_eqb_notin; [reflexivity|].
    rewrite all_mutations_in. exact Hm.
Qed.

Lemma sibling_matrix_cell_witness :
  cell (sibling_matrix example_variants) "A123T" "BA.2" = Some 1.
Proof.
  apply (proj1 (proj1 (sibling_matrix_cell example_variants (mk_variant "BA.2" ["A123T"])
                         "A123T" ltac:(vm_compute; repeat constructor; simpl; intuition discriminate)
                         ltac:(right; left; reflexivity))
                  ltac:(simpl; tauto))).
  left. reflexivity.
Defined.

End ComposerProps.

Module AggregatorMoreProps.
Import Aggregator AggregatorInv AggregatorFacts AggregatorMore AggregatorMoreFacts
       AggregatorExamples.

Lemma fetch_nucleotide_forall2 (svc : service) (ms qs : list string) (rs : list result) :
  fetch_mutation_counts_and_coverage svc ms "nucleotide" = (qs, inr rs) ->
  Forall2 (fun m r => exists qs', process_mutation svc "nucleotide" nucleotides m = (qs', inr r))
    ms rs.
Proof.
  unfold fetch_mutation_counts_and_coverage. simpl.
  apply (mutation_loop_forall2 svc "nucleotide" "nucleotide" nucleotides eq_refl).
Qed.

(** A successful nucleotide call returns one result per input mutation,
    in input order; each result's stratified records carry the dates the
    mutation's four queries returned, each date once, in order of first
    appearance (so no date is missing and none is repeated). *)
Theorem fetch_results_per_mutation (svc : service) (ms qs : list string) (rs : list result) :
  fetch_mutation_counts_and_coverage svc ms "nucleotide" = (qs, inr rs) ->
  map res_mutation rs = ms /\
  forall r, In r rs ->
    map st_date (res_stratified r) = first_appearance (query_dates svc (res_mutation r)) /\
    List.NoDup (map st_date (res_stratified r)) /\
    (forall d, In d (map st_date (res_stratified r)) <-> In d (query_dates svc (res_mutation r))).
Proof.
  intros H. pose proof (fetch_nucleotide_forall2 _ _ _ _ H) as H2. split.
  - clear H. induction H2 as [|m r ms rs (qs' & Hp) _ IH]; [reflexivity|].
    simpl. rewrite IH, (proj1 (process_mutation_dates _ _ _ _ _ _ Hp)). reflexivity.
  - intros r Hr. destruct (forall2_in_r _ _ _ _ H2 Hr) as (m & _ & qs' & Hp).
    destruct (process_mutation_dates _ _ _ _ _ _ Hp) as [Hm Hd].
    assert (Hq : map st_date (res_stratified r) = first_appearance (query_dates svc (res_mutation r)))
      by (rewrite Hm, Hd; reflexivity).
    split; [exact Hq|]. rewrite Hq. unfold first_appearance. split.
    + apply fold_add_new_nodup. constructor.
    + intros d. rewrite fold_add_new_in. simpl. tauto.
Qed.

Lemma fetch_results_per_mutation_witness :
  exists qs rs,
    fetch_mutation_counts_and_coverage svc_counts ["A123T"; "C241T"] "nucleotide" = (qs, inr rs) /\
    map res_mutation rs = ["A123T"; "C241T"].
Proof.
  do 2 eexists. split; [reflexivity|].
  refine (proj1 (fetch_results_per_mutation svc_counts ["A123T"; "C241T"] _ _ _)).
  reflexivity.
Defined.

(** [fetch_counts_and_coverage_3D_df_nuc]: with no mutation the records
    are empty and [set_index] raises a [KeyError]; a failure of the
    aggregator propagates; on success, every index [(mutation, date)] is
    an input mutation with a date its queries returned, and for distinct
    input mutations the index has no duplicate. *)
Theorem df_3d_index (svc : service) (ms : list string) (rows : list df_row) :
  fetch_counts_and_coverage_3D_df_nuc svc [] =
    inl (KeyError "None of ['mutation', 'sampling_date'] are in the columns") /\
  (forall e, snd (fetch_mutation_counts_and_coverage svc ms "nucleotide") = inl e ->
     fetch_counts_and_coverage_3D_df_nuc svc ms = inl (Raised e)) /\
  (fetch_counts_and_coverage_3D_df_nuc svc ms = inr rows ->
     (forall m d v, In ((m, d), v) rows -> In m ms /\ In d (query_dates svc m)) /\
     (List.NoDup ms -> List.NoDup (map fst rows))).
Proof.
  split; [reflexivity|]. split.
  - intros e He. unfold fetch_counts_and_coverage_3D_df_nuc. rewrite He. reflexivity.
  - unfold fetch_counts_and_coverage_3D_df_nuc.
    destruct (fetch_mutation_counts_and_coverage svc ms "nucleotide") as [qs [e|rs]] eqn:Hf;
      simpl; [discriminate|].
    destruct (fetch_results_per_mutation svc ms qs rs Hf) as [Hms Hrs].
    unfold set_index. intros Hrows.
    assert (Hmap : map fst rows =
              flat_map (fun r => map (pair (res_mutation r)) (map st_date (res_stratified r))) rs).
    { transitivity (map (fun r => (rec_mutation r, rec_sampling_date r)) (records_of rs)).
      - destruct (records_of rs) as [|r0 rest]; [discriminate|].
        injection Hrows as Hrows. subst rows. simpl. rewrite ?map_map. reflexivity.
      - unfold records_of. clear Hrows Hf Hms Hrs. induction rs as [|r rs IH]; [reflexivity|].
        simpl. rewrite map_app, IH, !map_map. reflexivity. }
    split.
    + intros m d v Hin. apply (in_map fst) in Hin. rewrite Hmap in Hin. simpl in Hin.
      apply in_flat_map in Hin as (r & Hr & Hin).
      apply in_map_iff in Hin as (d' & Hp & Hd). injection Hp as <- <-.
      split; [rewrite <- Hms; apply in_map, Hr|].
      apply (proj2 (proj2 (Hrs r Hr)) d'), Hd.
    + intros Hnd. rewrite Hmap. rewrite <- Hms in Hnd. clear Hms Hmap Hrows Hf.
      induction rs as [|r rs IH]; simpl; [constructor|].
      simpl in Hnd. apply List.NoDup_cons_iff in Hnd as [Hr Hnd].
      apply List.NoDup_app.
      * apply nodup_pair, (proj1 (proj2 (Hrs r (or_introl eq_refl)))).
      * apply IH; [intros r' Hr'; apply Hrs; right; exact Hr' | exact Hnd].
      * intros [m d] Hin Hin'. apply in_map_iff in Hin as (d0 & Hp & _).
        injection Hp as <- _. apply in_flat_map in Hin' as (r' & Hr' & Hin').
        apply in_map_iff in Hin' as (d1 & Hp & _). injection Hp as Hm _.
        apply Hr. rewrite <- Hm. apply in_map, Hr'.
Qed.

Lemma df_3d_index_witness :
  exists rows, fetch_counts_and_coverage_3D_df_nuc svc_counts ["A123T"; "C241T"] = inr rows /\
  List.NoDup (map fst rows).
Proof.
  eexists. split; [reflexivity|].
  apply (proj2 (proj2 (proj2 (df_3d_index svc_counts ["A123T"; "C241T"] _)) eq_refl)).
  repeat constructor; simpl; intuition discriminate.
Defined.

End AggregatorMoreProps.

Module LongTaskProps.
Import Py LongTask.





(** With [n_iterations <= 0] the loop does not run (nor does
    [time.sleep]): the only record written is "Completed" with
    [current = total = n_iterations] and no result, and the task returns
    no result with [iterations_completed] 0. *)
Theorem long_running_task_nonpositive (n : Z) (sleep_time : Q) (clock : nat -> Q) :
  (n <= 0)%Z ->
  long_running_task n sleep_time clock =
    ([mk_task_progress n n "Completed" []], inr (mk_task_result 0 n [])).
Proof.
  intros Hn. unfold long_running_task.
  replace (Z.to_nat n) with 0%nat by lia. reflexivity.
Qed.

Lemma long_running_task_nonpositive_witness :
  long_running_task (-2) (-1) (fun _ => 0%Q) =
    ([mk_task_progress (-2) (-2) "Completed" []], inr (mk_task_result 0 (-2) [])).
Proof.
  apply (long_running_task_nonpositive (-2) (-1) (fun _ => 0%Q)). lia.
Defined.

End LongTaskProps.
